(** * Halden weather server: forecast formatting and weather-triggered search

    A shallow embedding of the two entry points of the repository
    ([src/unnamed/part_000], the four-tool server, and
    [src/yr-weather/src/index.js], the three-tool variant) together with the
    properties of their specification.

    Conventions of the embedding.
    - A JavaScript number that comes out of a JSON document is a finite
      double; it is represented by the rational it denotes ([Q]).  The
      comparisons [>] and [<] are exact on that representation; [+=]
      rounds the exact sum to the nearest double, or to an infinity where
      the doubles end ([JS.add]).
    - [undefined] and absent JSON members are [None]; optional chaining
      [a?.b?.c] is [option] bind.
    - The platform primitives the code calls without implementing them
      (number to string conversion, the [Date] object) are variables of the
      section [Server].
    - [Date.prototype.toISOString] throws on a date that is not valid;
      which timestamps give a valid date is left to the platform
      ([Date_valid]).
    - A thrown error is the constructor [Threw] of [completion]; network
      traffic and the diagnostic channel are recorded in [world]. *)

From Stdlib Require Import Bool Arith ZArith QArith Qround Qpower Lqa Lia.
From Stdlib Require Import List String Ascii Permutation Sorted.
From Stdlib Require Import DecimalString DecimalPos DecimalZ.
Import ListNotations.

Open Scope string_scope.
Open Scope Q_scope.

(** ** JavaScript primitives *)

Module JS.

(** [!s] is false exactly for a non-empty string. *)
Definition truthy_string (s : string) : bool :=
  match s with
  | EmptyString => false
  | String _ _ => true
  end.

(** A number is truthy when it is not zero. *)
Definition truthy_number (q : Q) : bool := negb (Qeq_bool q 0).

(** [x > y] on numbers. *)
Definition gt (x y : Q) : bool := negb (Qle_bool x y).

(** [x < y] on numbers. *)
Definition lt (x y : Q) : bool := negb (Qle_bool y x).

(** A number that may be infinite: the result of an arithmetic operation,
    of [Math.min] and of [Math.max]. *)
Inductive extended : Type :=
| Finite (q : Q)
| PlusInfinity
| MinusInfinity.

(** [- x]. *)
Definition negate (x : extended) : extended :=
  match x with
  | Finite q => Finite (- q)
  | PlusInfinity => MinusInfinity
  | MinusInfinity => PlusInfinity
  end.

(** [x > y] with [x] possibly infinite. *)
Definition gt_extended (x : extended) (y : Q) : bool :=
  match x with
  | Finite q => gt q y
  | PlusInfinity => true
  | MinusInfinity => false
  end.

(** The integer nearest to [q], the even one of the two when [q] lies
    halfway between them. *)
Definition round_half_even (q : Q) : Z :=
  let f := Qfloor q in
  match Qcompare (q - inject_Z f) (1 # 2) with
  | Lt => f
  | Gt => (f + 1)%Z
  | Eq => if Z.even f then f else (f + 1)%Z
  end.

(** The exponent [e] with [2^e <= a < 2^(e+1)], for a positive [a]: the
    difference of the bit lengths of numerator and denominator, or one
    less. *)
Definition binade (a : Q) : Z :=
  let e := (Z.log2 (Qnum a) - Z.log2 (Z.pos (Qden a)))%Z in
  if Qle_bool (2 ^ e) a then e else (e - 1)%Z.

(** The double nearest to a positive [a]: a significand of 53 bits times
    a power of two that is at least 2^-1074, the spacing of the
    subnormal doubles; the even significand on a tie; infinity when the
    rounded value reaches 2^1024. *)
Definition round_double_pos (a : Q) : extended :=
  let k := Z.max (binade a - 52) (-1074) in
  let v := inject_Z (round_half_even (a / 2 ^ k)) * 2 ^ k in
  if Qle_bool (2 ^ 1024) v then PlusInfinity else Finite (Qred v).

(** The rounding every arithmetic operation on doubles ends with. *)
Definition round_double (q : Q) : extended :=
  match Qcompare q 0 with
  | Eq => Finite 0
  | Gt => round_double_pos q
  | Lt => negate (round_double_pos (- q))
  end.

(** [x + y] with [y] finite: the exact sum, rounded; an infinity stays
    what it is. *)
Definition add (x : extended) (y : Q) : extended :=
  match x with
  | Finite a => round_double (a + y)
  | PlusInfinity => PlusInfinity
  | MinusInfinity => MinusInfinity
  end.

(** [undefined > y] converts [undefined] to NaN and is false. *)
Definition gt_undef (x : option Q) (y : Q) : bool :=
  match x with
  | Some v => gt v y
  | None => false
  end.

(** [x || 0] on an optional number. *)
Definition or_zero (x : option Q) : Q :=
  match x with
  | Some v => if truthy_number v then v else 0
  | None => 0
  end.

(** [s.startsWith(p)], the test [includes] makes at each position. *)
Fixpoint starts_with (p s : string) : bool :=
  match p, s with
  | EmptyString, _ => true
  | String a p', String b s' => Ascii.eqb a b && starts_with p' s'
  | String _ _, EmptyString => false
  end.

(** [s.includes(needle)]: [needle] occurs at some position of [s]. *)
Fixpoint includes (s needle : string) : bool :=
  starts_with needle s ||
  match s with
  | EmptyString => false
  | String _ s' => includes s' needle
  end.

(** [arr.join(sep)]. *)
Fixpoint join (sep : string) (l : list string) : string :=
  match l with
  | [] => EmptyString
  | [x] => x
  | x :: rest => x ++ sep ++ join sep rest
  end.

(** [s.split("T")[0]]: the part of [s] before the first ["T"]. *)
Fixpoint split_T_0 (s : string) : string :=
  match s with
  | EmptyString => EmptyString
  | String c s' => if Ascii.eqb c "T"%char then EmptyString
                   else String c (split_T_0 s')
  end.

(** The part of [s] before its first dot and the part after it. *)
Fixpoint split_dot (s : string) : string * string :=
  match s with
  | EmptyString => (EmptyString, EmptyString)
  | String c s' =>
    if Ascii.eqb c "."%char then (EmptyString, s')
    else let (before, after) := split_dot s' in (String c before, after)
  end.

(** A leading sign and the rest of the string. *)
Definition sign_split (s : string) : bool * string :=
  match s with
  | String c s' =>
    if Ascii.eqb c "-"%char then (true, s')
    else if Ascii.eqb c "+"%char then (false, s')
    else (false, s)
  | EmptyString => (false, s)
  end.

(** The value of an unsigned decimal literal: digits, an optional dot,
    digits, with a digit on one side of the dot at least. *)
Definition decimal_of_string (body : string) : option Q :=
  let (whole, fraction) := split_dot body in
  match whole, fraction with
  | EmptyString, EmptyString => None
  | _, _ =>
    match DecimalString.NilEmpty.uint_of_string whole,
          DecimalString.NilEmpty.uint_of_string fraction with
    | Some i, Some f =>
      Some (inject_Z (Z.of_uint i) +
            inject_Z (Z.of_uint f) /
            inject_Z (10 ^ Z.of_nat (String.length fraction)))
    | _, _ => None
    end
  end.

(** The part of [s] before its first [e] or [E] and the part after it,
    when there is one. *)
Fixpoint split_exponent (s : string) : string * option string :=
  match s with
  | EmptyString => (EmptyString, None)
  | String c s' =>
    if Ascii.eqb c "e"%char || Ascii.eqb c "E"%char
    then (EmptyString, Some s')
    else let (before, after) := split_exponent s' in (String c before, after)
  end.

(** The value of an exponent: digits behind an optional sign. *)
Definition exponent_of_string (s : string) : option Z :=
  let (negative, body) := sign_split s in
  match body with
  | EmptyString => None
  | String _ _ =>
    match DecimalString.NilEmpty.uint_of_string body with
    | Some u => Some (if negative then (- Z.of_uint u)%Z else Z.of_uint u)
    | None => None
    end
  end.

(** The value of an unsigned decimal literal with an optional exponent
    part. *)
Definition literal_of_string (body : string) : option Q :=
  match decimal_of_string body with
  | Some v => Some v
  | None =>
    match split_exponent body with
    | (mantissa, Some exponent) =>
      match decimal_of_string mantissa, exponent_of_string exponent with
      | Some v, Some e => Some (v * 10 ^ e)
      | _, _ => None
      end
    | (_, None) => None
    end
  end.

(** The conversion of a string to a number, on the literals a number is
    printed as: an optional sign, then [Infinity] or a decimal literal,
    whose value is rounded to a double; [None] is NaN. *)
Definition Number_of_string (s : string) : option extended :=
  let (negative, body) := sign_split s in
  if String.eqb body "Infinity"
  then Some (if negative then MinusInfinity else PlusInfinity)
  else
    match literal_of_string body with
    | Some v => Some (round_double (if negative then - v else v))
    | None => None
    end.

(** [s > y] with [s] a string: the string is converted to a number, and
    the comparison is false on NaN. *)
Definition gt_string (s : string) (y : Q) : bool :=
  match Number_of_string s with
  | Some v => gt_extended v y
  | None => false
  end.

(** [Math.min(...l)]. *)
Definition Math_min (l : list Q) : extended :=
  fold_left
    (fun acc x =>
       match acc with
       | Finite m => if lt x m then Finite x else Finite m
       | PlusInfinity => Finite x
       | MinusInfinity => MinusInfinity
       end)
    l PlusInfinity.

(** [Math.max(...l)]. *)
Definition Math_max (l : list Q) : extended :=
  fold_left
    (fun acc x =>
       match acc with
       | Finite m => if gt x m then Finite x else Finite m
       | MinusInfinity => Finite x
       | PlusInfinity => PlusInfinity
       end)
    l MinusInfinity.

End JS.

(** ** Icon mapper *)

Definition glyph_default : string := "🌤️".
Definition glyph_rain : string := "🌧️".
Definition glyph_snow : string := "❄️".
Definition glyph_thunder : string := "⛈️".
Definition glyph_fog : string := "🌫️".
Definition glyph_cloudy : string := "☁️".
Definition glyph_fair : string := "🌤️".
Definition glyph_clear : string := "☀️".

(** [formatWeatherIcon(symbolCode)]. *)
Definition formatWeatherIcon (symbolCode : option string) : string :=
  match symbolCode with
  | None => glyph_default
  | Some code =>
    if negb (JS.truthy_string code) then glyph_default
    else if JS.includes code "rain" then glyph_rain
    else if JS.includes code "snow" then glyph_snow
    else if JS.includes code "thunder" then glyph_thunder
    else if JS.includes code "fog" then glyph_fog
    else if JS.includes code "cloudy" then glyph_cloudy
    else if JS.includes code "fair" then glyph_fair
    else if JS.includes code "clear" then glyph_clear
    else glyph_default
  end.

(** The mapping as the specification words it: a priority table searched
    for the first substring that occurs in the code. *)
Definition icon_table : list (string * string) :=
  [ ("rain", glyph_rain); ("snow", glyph_snow); ("thunder", glyph_thunder);
    ("fog", glyph_fog); ("cloudy", glyph_cloudy); ("fair", glyph_fair);
    ("clear", glyph_clear) ].

Definition occurs_in (needle s : string) : Prop :=
  exists pre post, s = pre ++ needle ++ post.

Definition icon_spec (symbolCode : option string) : string :=
  match symbolCode with
  | None => glyph_default
  | Some code =>
    match find (fun row => JS.includes code (fst row)) icon_table with
    | Some row => snd row
    | None => glyph_default
    end
  end.

(** ** Data model *)

(** [entry.data.instant.details]. *)
Record instant_details : Type := {
  air_temperature : Q;
  wind_speed : Q;
  relative_humidity : Q;
  air_pressure_at_sea_level : Q
}.

(** [next_1_hours.summary] and [next_1_hours.details]; every member the
    code reaches through [?.] is optional. *)
Record next_summary : Type := { symbol_code : option string }.
Record next_details : Type := { precipitation_amount : option Q }.
Record next_hours : Type := {
  summary : option next_summary;
  details : option next_details
}.

(** One element of [properties.timeseries]. *)
Record entry : Type := {
  time : string;
  instant : instant_details;
  next_1_hours : option next_hours
}.

(** The value [fetchHaldenForecast] hands to the handlers. *)
Record forecast : Type := { timeseries : list entry }.

(** [next1h?.summary?.symbol_code]. *)
Definition symbol_code_of (next1h : option next_hours) : option string :=
  match next1h with
  | Some n => match summary n with
              | Some s => symbol_code s
              | None => None
              end
  | None => None
  end.

(** [next1h?.details?.precipitation_amount]. *)
Definition precipitation_of (next1h : option next_hours) : option Q :=
  match next1h with
  | Some n => match details n with
              | Some d => precipitation_amount d
              | None => None
              end
  | None => None
  end.

(** One element of [web.results] of the search response. *)
Record search_result : Type := {
  title : string;
  url : string;
  description : string
}.

Record search_web : Type := { results : option (list search_result) }.

(** The parsed body of the search response. *)
Record search_body : Type := { web : option search_web }.

(** [results?.web?.results], applied to what [braveSearch] returned. *)
Definition web_results (r : option search_body) : option (list search_result) :=
  match r with
  | Some b => match web b with
              | Some w => results w
              | None => None
              end
  | None => None
  end.

(** [results?.web?.results?.length] as a condition. *)
Definition has_results (r : option search_body) : bool :=
  match web_results r with
  | Some (_ :: _) => true
  | _ => false
  end.

(** ** Effects: errors, the network and the diagnostic channel *)

Inductive error : Type :=
| Error (message : string)
| TypeError (message : string)
| SyntaxError (message : string)
| RangeError (message : string).

Definition error_message (e : error) : string :=
  match e with
  | Error m | TypeError m | SyntaxError m | RangeError m => m
  end.

Inductive completion (A : Type) : Type :=
| Returned (a : A)
| Threw (e : error).
Arguments Returned {A} a.
Arguments Threw {A} e.

(** An outgoing GET request. *)
Record request : Type := {
  req_url : string;
  req_params : list (string * string);
  req_headers : list (string * string)
}.

(** What [response.json()] does with the body. *)
Inductive json_outcome (A : Type) : Type :=
| JsonMalformed (message : string)
| JsonParsed (a : A).
Arguments JsonMalformed {A} message.
Arguments JsonParsed {A} a.

Record response (A : Type) : Type := {
  status : Z;
  statusText : string;
  body : json_outcome A
}.
Arguments status {A} r.
Arguments statusText {A} r.
Arguments body {A} r.

(** [response.ok]. *)
Definition ok {A : Type} (r : response A) : bool :=
  ((200 <=? status r) && (status r <=? 299))%Z.

(** What [fetch] does: it rejects, or resolves to a response. *)
Inductive reply (A : Type) : Type :=
| NetworkFailure (message : string)
| Reply (r : response A).
Arguments NetworkFailure {A} message.
Arguments Reply {A} r.

(** A parsed forecast body either has [properties.timeseries], or reading
    [data.properties.timeseries.length] raises a [TypeError]. *)
Inductive yr_body : Type :=
| NoTimeseries
| WithTimeseries (f : forecast).

(** The two upstream services. *)
Record network : Type := {
  yr : request -> reply yr_body;
  brave : request -> reply search_body
}.

(** What a run leaves behind: the requests issued and the lines written
    with [console.error], oldest first. *)
Record world : Type := {
  sent : list request;
  console : list string
}.

Definition initial_world : world := {| sent := []; console := [] |}.

(** Computations that may throw and that act on the [world]. *)
Definition js (A : Type) : Type := world -> completion A * world.

Definition ret {A : Type} (a : A) : js A := fun w => (Returned a, w).

Definition throw {A : Type} (e : error) : js A := fun w => (Threw e, w).

Definition bind {A B : Type} (m : js A) (k : A -> js B) : js B :=
  fun w =>
    match m w with
    | (Returned a, w') => k a w'
    | (Threw e, w') => (Threw e, w')
    end.

(** [try { m } catch (err) { h err }]. *)
Definition try_catch {A : Type} (m : js A) (h : error -> js A) : js A :=
  fun w =>
    match m w with
    | (Returned a, w') => (Returned a, w')
    | (Threw e, w') => h e w'
    end.

(** [console.error(line)]. *)
Definition console_error (line : string) : js unit :=
  fun w => (Returned tt, {| sent := sent w; console := (console w ++ [line])%list |}).

(** [await fetch(...)] against one of the upstream services. *)
Definition fetch {A : Type} (service : request -> reply A) (r : request)
  : js (response A) :=
  fun w =>
    let w' := {| sent := (sent w ++ [r])%list; console := console w |} in
    match service r with
    | NetworkFailure m => (Threw (TypeError m), w')
    | Reply resp => (Returned resp, w')
    end.

(** [await response.json()]. *)
Definition json {A : Type} (r : response A) : js A :=
  match body r with
  | JsonMalformed m => throw (SyntaxError m)
  | JsonParsed a => ret a
  end.

Declare Scope js_scope.
Delimit Scope js_scope with js.
Notation "x <- m ;; k" := (bind m (fun x => k))
  (at level 61, m at next level, right associativity) : js_scope.
Notation "m ;;; k" := (bind m (fun _ => k))
  (at level 61, right associativity) : js_scope.

(** [arr.forEach(callback)] with a callback that updates an object of the
    enclosing scope: the object is handed from one call to the next, and
    an error thrown by a call ends the loop. *)
Fixpoint forEach {A S : Type} (callback : S -> A -> js S) (arr : list A)
  (s : S) : js S :=
  match arr with
  | [] => ret s
  | x :: rest => bind (callback s x) (forEach callback rest)
  end.

(** A tool result: [{ content: [{ type: "text", text }] }]. *)
Record content_block : Type := {
  block_type : string;
  block_text : string
}.

Definition tool_result : Type := list content_block.

Definition text_result (text : string) : tool_result :=
  [ {| block_type := "text"; block_text := text |} ].

(** The line feed of a JavaScript newline escape, and the double quote. *)
Definition nl : string := String (ascii_of_nat 10) EmptyString.
Definition dquote : string := String (ascii_of_nat 34) EmptyString.

(** ** Forecast aggregator: the pure parts *)

(** What [dailyData[dayKey]] holds. *)
Record day_data : Type := {
  temps : list Q;
  conditions : list string;
  precipitation : JS.extended
}.

(** [dailyData]: an object used as a map.  Its keys are calendar dates,
    never array indices nor names of inherited properties, so a key is
    present exactly when it was assigned and [Object.entries] lists the
    keys in the order of their first assignment: an association list that
    grows at the end. *)
Definition daily : Type := list (string * day_data).

(** [dailyData[key]]. *)
Fixpoint daily_get (key : string) (d : daily) : option day_data :=
  match d with
  | [] => None
  | (k, v) :: rest => if String.eqb k key then Some v else daily_get key rest
  end.

(** An update of the object stored under [key]. *)
Fixpoint daily_modify (key : string) (f : day_data -> day_data) (d : daily)
  : daily :=
  match d with
  | [] => []
  | (k, v) :: rest =>
    if String.eqb k key then (k, f v) :: rest
    else (k, v) :: daily_modify key f rest
  end.

Definition empty_day : day_data :=
  {| temps := []; conditions := []; precipitation := JS.Finite 0 |}.

(** [if (!dailyData[key]) dailyData[key] = {...}]: every stored value is
    an object, hence truthy. *)
Definition daily_ensure (key : string) (d : daily) : daily :=
  match daily_get key d with
  | Some _ => d
  | None => (d ++ [(key, empty_day)])%list
  end.

Definition push_temp (t : Q) (v : day_data) : day_data :=
  {| temps := (temps v ++ [t])%list;
     conditions := conditions v;
     precipitation := precipitation v |}.

Definition push_condition (c : string) (v : day_data) : day_data :=
  {| temps := temps v;
     conditions := (conditions v ++ [c])%list;
     precipitation := precipitation v |}.

(** [data.precipitation += p]. *)
Definition add_precipitation (p : Q) (v : day_data) : day_data :=
  {| temps := temps v;
     conditions := conditions v;
     precipitation := JS.add (precipitation v) p |}.

(** [conds.filter((v) => v === a).length]. *)
Definition occurrences (conds : list string) (a : string) : nat :=
  List.length (filter (fun v => String.eqb v a) conds).

(** The comparator handed to [sort]. *)
Definition by_occurrences (conds : list string) (a b : string) : Z :=
  (Z.of_nat (occurrences conds a) - Z.of_nat (occurrences conds b))%Z.

(** [Array.prototype.sort(cmp)]: the elements are read out, sorted stably
    under [cmp] and written back, so [cmp] sees the array as it was. *)
Fixpoint sort_insert {A : Type} (cmp : A -> A -> Z) (x : A) (l : list A)
  : list A :=
  match l with
  | [] => [x]
  | y :: rest => if (cmp x y <=? 0)%Z then x :: y :: rest
                 else y :: sort_insert cmp x rest
  end.

Fixpoint Array_sort {A : Type} (cmp : A -> A -> Z) (l : list A) : list A :=
  match l with
  | [] => []
  | x :: rest => sort_insert cmp x (Array_sort cmp rest)
  end.

(** [arr.pop()], for its value: the last element, or [undefined]. *)
Fixpoint Array_pop {A : Type} (l : list A) : option A :=
  match l with
  | [] => None
  | [x] => Some x
  | _ :: rest => Array_pop rest
  end.

(** [conditions.sort(...).pop()]. *)
Definition mostCommon (conds : list string) : option string :=
  Array_pop (Array_sort (by_occurrences conds) conds).

Definition digits (z : Z) : string :=
  DecimalString.NilZero.string_of_int (Z.to_int z).

(** The integer [n] that [toFixed(1)] prescribes for a non-negative [x]:
    the one for which [n / 10 - x] is closest to zero, the larger one on a
    tie. *)
Definition tenths (x : Q) : Z := Qfloor (x * 10 + (1 # 2)).

(** The digits of [n] with a dot before the last one. *)
Definition fixed1_digits (n : Z) : string :=
  digits (n / 10) ++ "." ++ digits (n mod 10).

(** ** Activity suggestions: the pure part *)

Definition msg_indoor : string := "☔ Indoor activities recommended".
Definition msg_outdoor : string := "🌞 Great weather for outdoor activities".
Definition msg_cold : string := "🧊 Cold weather - indoor or winter activities".
Definition msg_mild : string :=
  "🚶 Mild weather - good for walking or light outdoor activities".
Definition msg_windy : string :=
  "💨 Windy conditions - sheltered activities preferred".

Definition query_prefix : string := "Halden Norway ".
Definition query_indoor : string := "indoor activities museums cafes".
Definition query_outdoor : string := "hiking parks outdoor activities".
Definition query_cold : string := "winter activities indoor venues".
Definition query_mild : string := "walking trails parks cafes".

(** The statements between [let suggestions = []] and the search: the
    pair of [suggestions] and [searchQuery] they leave. *)
Definition advise (hasRain : bool) (temp wind : Q) : list string * string :=
  let suggestions : list string := [] in
  let searchQuery := query_prefix in
  let '(suggestions, searchQuery) :=
    if hasRain then
      ((suggestions ++ [msg_indoor])%list, searchQuery ++ query_indoor)
    else if JS.gt temp 15 then
      ((suggestions ++ [msg_outdoor])%list, searchQuery ++ query_outdoor)
    else if JS.lt temp 5 then
      ((suggestions ++ [msg_cold])%list, searchQuery ++ query_cold)
    else
      ((suggestions ++ [msg_mild])%list, searchQuery ++ query_mild) in
  let suggestions :=
    if JS.gt wind 10 then (suggestions ++ [msg_windy])%list else suggestions in
  (suggestions, searchQuery).

(** [l.map((x, i) => f(x, i))], counting from [i]. *)
Fixpoint mapi_from {A B : Type} (i : nat) (f : A -> nat -> B) (l : list A)
  : list B :=
  match l with
  | [] => []
  | x :: rest => f x i :: mapi_from (S i) f rest
  end.

(** ** The server *)

Definition USER_AGENT : string := "weather-mcp-app/1.0".
Definition BRAVE_SEARCH_URL : string :=
  "https://api.search.brave.com/res/v1/web/search".
Definition HALDEN_LAT : Q := 591313 # 10000.
Definition HALDEN_LON : Q := 113871 # 10000.

Definition msg_current_failed : string :=
  "❌ Unable to fetch current weather data from YR API. Please try again later.".
Definition msg_forecast_failed : string := "Failed to get forecast data.".
Definition msg_activities_failed : string :=
  "❌ Unable to get weather data for activity suggestions.".
Definition msg_enable_search : string :=
  nl ++ nl ++ "💡 Enable search with Brave API key for specific venue suggestions".
Definition msg_search_disabled : string :=
  "🔍 Search functionality requires Brave API key configuration." ++ nl ++ nl ++
  "To enable search:" ++ nl ++
  "1. Get API key from https://brave.com/search/api/" ++ nl ++
  "2. Set BRAVE_API_KEY environment variable".
Definition hourly_header : string :=
  "🕐 Hourly forecast for Halden (next 12 hours):".
Definition daily_header : string := "📅 3-day forecast for Halden:".

(** Reading a property of [undefined]. *)
Definition undefined_read (property : string) : error :=
  TypeError ("Cannot read properties of undefined (reading '" ++ property ++ "')").

(** What [toISOString] throws on an invalid date. *)
Definition invalid_time : error := RangeError "Invalid time value".

(** ** Vocabulary of the statements *)

(** The distinct elements of a list, each at the place of its first
    occurrence. *)
Fixpoint first_seen (keys : list string) : list string :=
  match keys with
  | [] => []
  | k :: rest => k :: filter (fun k' => negb (String.eqb k' k)) (first_seen rest)
  end.

(** [m] is the least, respectively the greatest, number of [l]. *)
Definition is_minimum (l : list Q) (m : Q) : Prop :=
  In m l /\ forall x, In x l -> m <= x.

Definition is_maximum (l : list Q) (m : Q) : Prop :=
  In m l /\ forall x, In x l -> x <= m.

(** A precipitation amount is present and greater than zero. *)
Definition rains (amount : option Q) : Prop :=
  exists v, amount = Some v /\ 0 < v.

(** The ways a request fails: a network-level error, a status outside
    200..299, a body that is not JSON. *)
Definition fetch_failure {A : Type} (r : reply A) : Prop :=
  match r with
  | NetworkFailure _ => True
  | Reply resp => ok resp = false \/ exists m, body resp = JsonMalformed m
  end.

(** The request succeeds with the parsed body [a]. *)
Definition fetch_success {A : Type} (r : reply A) (a : A) : Prop :=
  exists resp, r = Reply resp /\ ok resp = true /\ body resp = JsonParsed a.

(** What the forecast service hands over: a forecast when the request
    succeeds with a body that has a timeseries, nothing otherwise. *)
Definition delivered (r : reply yr_body) : option forecast :=
  match r with
  | NetworkFailure _ => None
  | Reply resp =>
    if ok resp then
      match body resp with
      | JsonParsed (WithTimeseries f) => Some f
      | JsonParsed NoTimeseries => None
      | JsonMalformed _ => None
      end
    else None
  end.

(** The search credential is set and not empty. *)
Definition credential (key : option string) : Prop :=
  exists k, key = Some k /\ k <> EmptyString.

(** What one entry does to the data of its day: the three updates of the
    grouping callback, on the value rather than on the object. *)
Definition absorb (e : entry) (v : day_data) : day_data :=
  let v := push_temp (air_temperature (instant e)) v in
  let v :=
    match symbol_code_of (next_1_hours e) with
    | Some code => if JS.truthy_string code then push_condition code v else v
    | None => v
    end in
  match precipitation_of (next_1_hours e) with
  | Some amount =>
    if JS.truthy_number amount then add_precipitation amount v else v
  | None => v
  end.

(** The data of a day after its entries, in order. *)
Definition absorb_all (es : list entry) : day_data :=
  fold_left (fun v e => absorb e v) es empty_day.


(** The characters 0 to 9, and the strings made of them. *)
Definition is_digit (c : ascii) : bool :=
  (48 <=? nat_of_ascii c)%nat && (nat_of_ascii c <=? 57)%nat.

Fixpoint all_digits (s : string) : bool :=
  match s with
  | EmptyString => true
  | String c s' => is_digit c && all_digits s'
  end.

(** Order by a natural-number key. *)
Definition key_le {A : Type} (key : A -> nat) (a b : A) : Prop :=
  (key a <= key b)%nat.


(** What the search service hands over: the parsed body when the request
    succeeds, nothing otherwise. *)
Definition search_delivered (r : reply search_body) : option search_body :=
  match r with
  | NetworkFailure _ => None
  | Reply resp =>
    if ok resp then
      match body resp with
      | JsonParsed parsed => Some parsed
      | JsonMalformed _ => None
      end
    else None
  end.

(** The results a reply of the search service carries, none when the
    request fails or the body has no [web.results]. *)
Definition found_results (r : reply search_body) : list search_result :=
  match web_results (search_delivered r) with
  | Some found => found
  | None => []
  end.

(** The non-empty condition codes of a run of entries, in order. *)
Definition condition_codes (es : list entry) : list string :=
  flat_map
    (fun e =>
       match symbol_code_of (next_1_hours e) with
       | Some code => if JS.truthy_string code then [code] else []
       | None => []
       end) es.

(** The precipitation amounts of a run of entries that are present and
    not zero, in order. *)
Definition rain_amounts (es : list entry) : list Q :=
  flat_map
    (fun e =>
       match precipitation_of (next_1_hours e) with
       | Some amount => if JS.truthy_number amount then [amount] else []
       | None => []
       end) es.

(** The sum of a list of numbers as [+=] forms it: from zero, one number
    after the other, each addition rounded. *)
Definition running_sum (l : list Q) : JS.extended :=
  fold_left JS.add l (JS.Finite 0).

(** A number that may be infinite is not negative. *)
Definition not_negative (x : JS.extended) : Prop :=
  match x with
  | JS.Finite q => 0 <= q
  | JS.PlusInfinity => True
  | JS.MinusInfinity => False
  end.

(** The number of temperatures stored in [dailyData], all days together. *)
Definition entries_counted (d : daily) : nat :=
  list_sum (map (fun row => List.length (temps (snd row))) d).


(** ** Stand-ins for the platform primitives

    The statements below hold for every choice of the primitives; these
    choices serve to run the handlers on concrete inputs. *)

(** Prints a rational with at most two decimal places the way JavaScript
    prints the corresponding double (no trailing zeros), and any other
    rational as a fraction. *)
Definition sample_show (q : Q) : string :=
  let den := Z.pos (Qden q) in
  if negb ((Qnum q * 100) mod den =? 0)%Z
  then digits (Qnum q) ++ "/" ++ digits den
  else
    let h := (Qnum q * 100 / den)%Z in
    let a := Z.abs h in
    let d1 := ((a / 10) mod 10)%Z in
    let d2 := (a mod 10)%Z in
    (if (h <? 0)%Z then "-" else EmptyString) ++
    digits (a / 100) ++
    (if (d2 =? 0)%Z
     then if (d1 =? 0)%Z then EmptyString else "." ++ digits d1
     else "." ++ digits d1 ++ digits d2).

(** A timestamp in the form [toISOString] produces is returned as it is;
    the host is taken to run in UTC, so that the hour is read off the
    timestamp, and the day label is the date itself. *)
Definition sample_toISOString (t : string) : string := t.

(** A timestamp is taken for a valid date when it starts with a year. *)
Definition sample_valid (t : string) : bool :=
  (4 <=? String.length t)%nat && all_digits (substring 0 4 t).

Definition sample_getHours (t : string) : Z :=
  match DecimalString.NilZero.int_of_string (substring 11 2 t) with
  | Some h => Z.of_int h
  | None => 0%Z
  end.

Definition sample_toLocaleDateString (d : string) : string := d.

(** A network whose forecast service answers 200 with the given
    timeseries and whose search service is unreachable. *)
Definition sample_net (ts : list entry) : network :=
  {| yr := fun _ =>
       Reply {| status := 200; statusText := "OK";
                body := JsonParsed (WithTimeseries {| timeseries := ts |}) |};
     brave := fun _ => NetworkFailure "unreachable" |}.

Definition sample_entry (t : string) (temp wind : Q) (next : option next_hours)
  : entry :=
  {| time := t;
     instant := {| air_temperature := temp; wind_speed := wind;
                   relative_humidity := 80;
                   air_pressure_at_sea_level := 1013 |};
     next_1_hours := next |}.

Definition sample_next (code : string) (amount : Q) : option next_hours :=
  Some {| summary := Some {| symbol_code := Some code |};
          details := Some {| precipitation_amount := Some amount |} |}.

(** ** Sample inputs *)

(** Scenario C of the specification: precipitation 1.2 mm, wind 15 m/s. *)
Definition scenario_C : list entry :=
  [ sample_entry "2024-01-15T10:00:00.000Z" 7 15 (sample_next "rain" (12 # 10)) ].

(** Two calendar days with temperatures 2, 8 and 10, 1. *)
Definition two_days : list entry :=
  [ sample_entry "2024-01-15T10:00:00.000Z" 2 3 (sample_next "cloudy" 0);
    sample_entry "2024-01-15T11:00:00.000Z" 8 3 (sample_next "rain" (12 # 10));
    sample_entry "2024-01-16T10:00:00.000Z" 10 3 None;
    sample_entry "2024-01-16T11:00:00.000Z" 1 3 (sample_next "fair_day" (3 # 10)) ].

(** One entry with 0.04 mm of precipitation. *)
Definition drizzle : list entry :=
  [ sample_entry "2024-01-15T10:00:00.000Z" 3 2 (sample_next "cloudy" (4 # 100)) ].

(** Two entries of one day with 0.02 mm and 0.03 mm of precipitation. *)
Definition showers : list entry :=
  [ sample_entry "2024-01-15T10:00:00.000Z" 3 2 (sample_next "rain" (2 # 100));
    sample_entry "2024-01-15T11:00:00.000Z" 4 2 (sample_next "rain" (3 # 100)) ].

(** An entry whose timestamp is not a date. *)
Definition undated : list entry :=
  [ sample_entry "yesterday" 3 2 None ].

(** Entries without a next-hour block. *)
Definition bare_hours : list entry :=
  [ sample_entry "2024-01-15T22:00:00.000Z" 3 12 None;
    sample_entry "2024-01-15T23:00:00.000Z" 2 11 None;
    sample_entry "2024-01-16T00:00:00.000Z" 1 9 None ].

(** A network whose forecast service answers 500. *)
Definition failing_net : network :=
  {| yr := fun _ =>
       Reply {| status := 500; statusText := "Internal Server Error";
                body := JsonMalformed "Unexpected token" |};
     brave := fun _ => NetworkFailure "unreachable" |}.

(** A network whose search service answers 200 with the given results. *)
Definition search_net (found : list search_result) : network :=
  {| yr := fun _ => NetworkFailure "unreachable";
     brave := fun _ =>
       Reply {| status := 200; statusText := "OK";
                body := JsonParsed
                          {| web := Some {| results := Some found |} |} |} |}.

Definition two_results : list search_result :=
  [ {| title := "Fredriksten"; url := "https://example.org/a";
       description := "Fortress" |};
    {| title := "Rod herregard"; url := "https://example.org/b";
       description := "Manor" |} ].

(** A network whose forecast service answers 200 with a JSON body that
    has no timeseries. *)
Definition shapeless_net : network :=
  {| yr := fun _ =>
       Reply {| status := 200; statusText := "OK";
                body := JsonParsed NoTimeseries |};
     brave := fun _ => NetworkFailure "unreachable" |}.

(** A network whose two services answer 200, with the given timeseries
    and the given search results. *)
Definition full_net (ts : list entry) (found : list search_result) : network :=
  {| yr := yr (sample_net ts); brave := brave (search_net found) |}.

(** A network whose search service answers 429. *)
Definition throttled_net (ts : list entry) : network :=
  {| yr := yr (sample_net ts);
     brave := fun _ =>
       Reply {| status := 429; statusText := "Too Many Requests";
                body := JsonMalformed "Unexpected token" |} |}.

(** The rendering of a thrown value by the console, for the samples. *)
Definition sample_inspect (e : error) : string := error_message e.

(** Fourteen hourly entries. *)
Definition long_hours : list entry :=
  (two_days ++ bare_hours ++ two_days ++ bare_hours)%list.

Section Server.

#[local] Set Default Proof Using "Type".

(** Conversion of a number to a string, as a template literal does it. *)
Variable Number_toString : Q -> string.

(** [new Date(t).getHours()], in the time zone of the host. *)
Variable Date_getHours : string -> Z.

(** Whether [new Date(t)] is a valid date, one whose time value is not
    NaN. *)
Variable Date_valid : string -> bool.

(** What [new Date(t).toISOString()] returns for a valid date: the
    timestamp in UTC. *)
Variable Date_toISOString : string -> string.

(** [new Date(d).toLocaleDateString("en-US", { weekday: "long",
    month: "short", day: "numeric" })]. *)
Variable Date_toLocaleDateString : string -> string.

(** [process.env.BRAVE_API_KEY], read once. *)
Variable BRAVE_API_KEY : option string.

(** The upstream services as they answer during the run. *)
Variable net : network.

Local Open Scope js_scope.

(** [BRAVE_API_KEY] as a condition. *)
Definition key_configured : bool :=
  match BRAVE_API_KEY with
  | Some k => JS.truthy_string k
  | None => false
  end.

Definition show_int (n : Z) : string := Number_toString (inject_Z n).

Definition show_extended (x : JS.extended) : string :=
  match x with
  | JS.Finite q => Number_toString q
  | JS.PlusInfinity => "Infinity"
  | JS.MinusInfinity => "-Infinity"
  end.

(** *** Forecast client *)

Definition yr_request : request :=
  {| req_url :=
       "https://api.met.no/weatherapi/locationforecast/2.0/compact?lat=" ++
       Number_toString HALDEN_LAT ++ "&lon=" ++ Number_toString HALDEN_LON;
     req_params := [];
     req_headers := [("User-Agent", USER_AGENT); ("Accept", "application/json")] |}.

(** [fetchHaldenForecast()]; [null] is [None]. *)
Definition fetchHaldenForecast : js (option forecast) :=
  try_catch
    (response <- fetch (yr net) yr_request ;;
     if negb (ok response) then
       throw (Error ("YR API responded with status " ++
                     show_int (status response) ++ ": " ++
                     statusText response))
     else
       data <- json response ;;
       match data with
       | NoTimeseries => throw (undefined_read "timeseries")
       | WithTimeseries f =>
         console_error
           ("✅ Successfully fetched YR data for Halden (" ++
            show_int (Z.of_nat (List.length (timeseries f))) ++
            " time points)") ;;;
         ret (Some f)
       end)
    (fun err =>
       console_error ("❌ Failed to fetch YR weather data: " ++
                      error_message err) ;;;
       ret None).

(** *** Search client *)

Definition brave_request (query : string) (count : Z) : request :=
  {| req_url := BRAVE_SEARCH_URL;
     req_params := [("q", query); ("count", show_int count); ("country", "NO")];
     req_headers :=
       [("Accept", "application/json");
        ("X-Subscription-Token",
         match BRAVE_API_KEY with Some k => k | None => EmptyString end);
        ("User-Agent", USER_AGENT)] |}.

(** [braveSearch(query, count)]; [null] is [None]. *)
Definition braveSearch (query : string) (count : Z)
  : js (option search_body) :=
  if negb key_configured then
    console_error
      "⚠️  Brave API key not configured - search functionality disabled" ;;;
    ret None
  else
    try_catch
      (response <- fetch (brave net) (brave_request query count) ;;
       if negb (ok response) then
         console_error ("Brave Search API error: " ++
                        show_int (status response)) ;;;
         ret None
       else
         parsed <- json response ;;
         ret (Some parsed))
      (fun err =>
         console_error ("Search request failed: " ++ error_message err) ;;;
         ret None).

(** *** Tool 1: current weather *)

Definition current_text (current : entry) : string :=
  let details := instant current in
  let next1h := next_1_hours current in
  let icon := formatWeatherIcon (symbol_code_of next1h) in
  JS.join nl
    [ icon ++ " Current weather in Halden (via YR.no):";
      "Temperature: " ++ Number_toString (air_temperature details) ++ "°C";
      "Wind: " ++ Number_toString (wind_speed details) ++ " m/s";
      "Humidity: " ++ Number_toString (relative_humidity details) ++ "%";
      "Pressure: " ++ Number_toString (air_pressure_at_sea_level details) ++
      " hPa" ].

Definition get_current_weather : js tool_result :=
  data <- fetchHaldenForecast ;;
  match data with
  | None => ret (text_result msg_current_failed)
  | Some data =>
    match nth_error (timeseries data) 0 with
    | None => throw (undefined_read "data")
    | Some current => ret (text_result (current_text current))
    end
  end.

(** *** Tool 2: hourly forecast *)

(** The callback of [map] in the hourly handler. *)
Definition hourly_line (e : entry) : string :=
  let hour := Date_getHours (time e) in
  let details := instant e in
  let next1h := next_1_hours e in
  let icon := formatWeatherIcon (symbol_code_of next1h) in
  let temp := air_temperature details in
  let wind := wind_speed details in
  let precip := JS.or_zero (precipitation_of next1h) in
  show_int hour ++ ":00 " ++ icon ++ " " ++ Number_toString temp ++ "°C, " ++
  Number_toString wind ++ " m/s" ++
  (if JS.gt precip 0 then ", " ++ Number_toString precip ++ "mm rain" else EmptyString).

Definition hourly_lines (data : forecast) : list string :=
  map hourly_line (firstn 12 (timeseries data)).

Definition get_hourly_forecast : js tool_result :=
  data <- fetchHaldenForecast ;;
  match data with
  | None => ret (text_result msg_forecast_failed)
  | Some data =>
    ret (text_result
           (JS.join nl (hourly_header :: EmptyString :: hourly_lines data)))
  end.

(** *** Tool 3: three-day forecast *)

(** [new Date(t).toISOString()]: a RangeError on an invalid date. *)
Definition Date_prototype_toISOString (t : string) : js string :=
  if Date_valid t then ret (Date_toISOString t) else throw invalid_time.

(** The day key of an entry whose timestamp is a valid date. *)
Definition dayKey (e : entry) : string :=
  JS.split_T_0 (Date_toISOString (time e)).

(** The callback of [forEach] from the test of [dailyData[dayKey]] on:
    one entry folded into [dailyData] under the key [key]. *)
Definition group_under (key : string) (dailyData : daily) (e : entry)
  : daily :=
  let dailyData := daily_ensure key dailyData in
  let dailyData :=
    daily_modify key (push_temp (air_temperature (instant e))) dailyData in
  let dailyData :=
    match symbol_code_of (next_1_hours e) with
    | Some code =>
      if JS.truthy_string code
      then daily_modify key (push_condition code) dailyData
      else dailyData
    | None => dailyData
    end in
  match precipitation_of (next_1_hours e) with
  | Some amount =>
    if JS.truthy_number amount
    then daily_modify key (add_precipitation amount) dailyData
    else dailyData
  | None => dailyData
  end.

(** The callback of [forEach]. *)
Definition group_entry (dailyData : daily) (e : entry) : js daily :=
  iso <- Date_prototype_toISOString (time e) ;;
  let key := JS.split_T_0 iso in
  ret (group_under key dailyData e).

(** The callback on an entry whose timestamp is a valid date. *)
Definition group_step (dailyData : daily) (e : entry) : daily :=
  group_under (dayKey e) dailyData e.

(** [dailyData] after the loop over entries whose timestamps are valid
    dates. *)
Definition group_by_day (es : list entry) : daily :=
  fold_left group_step es [].

(** The digits [x.toFixed(1)] writes for a magnitude [x]: the digits of
    the nearest tenth below 10^21, and what the conversion to a string
    gives from there on. *)
Definition toFixed1_magnitude (x : Q) : string :=
  if Qle_bool (10 ^ 21) x then Number_toString x
  else fixed1_digits (tenths x).

(** [x.toFixed(1)]: a minus sign for a negative [x], then the digits for
    the absolute value; an infinity is converted to a string. *)
Definition toFixed1 (x : JS.extended) : string :=
  match x with
  | JS.Finite q =>
    if JS.lt q 0 then "-" ++ toFixed1_magnitude (- q)
    else toFixed1_magnitude q
  | JS.PlusInfinity => "Infinity"
  | JS.MinusInfinity => "-Infinity"
  end.

(** [", ${rain}mm rain"] when [rain > 0], with [rain] the formatted string. *)
Definition rain_note (total : JS.extended) : string :=
  let rain := toFixed1 total in
  if JS.gt_string rain 0 then ", " ++ rain ++ "mm rain" else EmptyString.

(** The callback of [map] over [Object.entries(dailyData).slice(0, 3)]. *)
Definition day_line (row : string * day_data) : string :=
  let '(date, data) := row in
  let dayName := Date_toLocaleDateString date in
  let minTemp := JS.Math_min (temps data) in
  let maxTemp := JS.Math_max (temps data) in
  let icon := formatWeatherIcon (mostCommon (conditions data)) in
  icon ++ " " ++ dayName ++ ": " ++ show_extended minTemp ++ "°C - " ++
  show_extended maxTemp ++ "°C" ++ rain_note (precipitation data).

(** [Object.entries(dailyData).slice(0, 3)] after the loop over a
    forecast whose timestamps are valid dates. *)
Definition days (data : forecast) : list (string * day_data) :=
  firstn 3 (group_by_day (timeseries data)).

Definition get_3day_forecast : js tool_result :=
  data <- fetchHaldenForecast ;;
  match data with
  | None => ret (text_result msg_forecast_failed)
  | Some data =>
    dailyData <- forEach group_entry (timeseries data) [] ;;
    let days := map day_line (firstn 3 dailyData) in
    ret (text_result (JS.join nl (daily_header :: EmptyString :: days)))
  end.

(** *** Tool 4: activity suggestions *)

Definition place_line (result : search_result) (i : nat) : string :=
  show_int (Z.of_nat (i + 1)) ++ ". " ++ title result ++ nl ++ "   " ++
  url result.

(** The search step of the activity handler: the text of
    [activityResults]. *)
Definition activity_results (searchQuery : string) : js string :=
  if key_configured then
    results <- braveSearch searchQuery 2 ;;
    if has_results results then
      ret (nl ++ nl ++ "🎯 Suggested places:" ++ nl ++
           JS.join (nl ++ nl)
             (mapi_from 0 place_line
                (match web_results results with
                 | Some l => l
                 | None => []
                 end)))
    else ret EmptyString
  else ret msg_enable_search.

Definition activity_header (temp wind : Q) : string :=
  "🎯 Activity suggestions for Halden (" ++ Number_toString temp ++ "°C, " ++
  Number_toString wind ++ " m/s wind):".

Definition suggest_activities : js tool_result :=
  data <- fetchHaldenForecast ;;
  match data with
  | None => ret (text_result msg_activities_failed)
  | Some data =>
    match nth_error (timeseries data) 0 with
    | None => throw (undefined_read "data")
    | Some current =>
      let temp := air_temperature (instant current) in
      let wind := wind_speed (instant current) in
      let next1h := next_1_hours current in
      let hasRain := JS.gt_undef (precipitation_of next1h) 0 in
      let '(suggestions, searchQuery) := advise hasRain temp wind in
      activityResults <- activity_results searchQuery ;;
      ret (text_result
             (JS.join nl
                ([activity_header temp wind; EmptyString] ++ suggestions ++
                 [activityResults])%list))
    end
  end.

(** *** The search tool of the three-tool variant *)

Definition info_line (result : search_result) (i : nat) : string :=
  show_int (Z.of_nat (i + 1)) ++ ". **" ++ title result ++ "**" ++ nl ++
  "   " ++ url result ++ nl ++ "   " ++ description result ++ nl.

Definition search_local_info (query : string) : js tool_result :=
  if negb key_configured then ret (text_result msg_search_disabled)
  else
    let searchQuery := "Halden Norway " ++ query in
    results <- braveSearch searchQuery 3 ;;
    if negb (has_results results) then
      ret (text_result
             ("🔍 No search results found for " ++ dquote ++ query ++ dquote ++
              " in Halden. Try different keywords."))
    else
      let formatted :=
        JS.join nl
          (mapi_from 0 info_line
             (match web_results results with
              | Some l => l
              | None => []
              end)) in
      ret (text_result
             (JS.join nl
                [ "🔍 Local info for " ++ dquote ++ query ++ dquote ++
                  " in Halden:"; EmptyString; formatted ])).

(** *** Process entry point *)

(** [main()]; [connect] is what [server.connect(transport)] does. *)
Definition main (connect : js unit) : js unit :=
  connect ;;;
  let hasSearch := if key_configured then "✅" else "❌" in
  console_error "🌤️  Halden Weather MCP Server running..." ;;;
  console_error "   📡 YR API: ✅ Ready" ;;;
  console_error
    ("   🔍 Search: " ++ hasSearch ++ " " ++
     if key_configured then "Ready" else "Disabled (no API key)").

(** [main().catch(...)]: the exit status when the process is made to exit;
    [inspect] is the rendering of the thrown value by [console.error]. *)
Definition start (connect : js unit) (inspect : error -> string)
  : world -> option Z * world :=
  fun w =>
    match main connect w with
    | (Returned _, w') => (None, w')
    | (Threw err, w') =>
      let line := "💥 Fatal error: " ++ inspect err in
      (Some 1%Z,
       {| sent := sent w'; console := (console w' ++ [line])%list |})
    end.

(** *** The aggregation as the specification words it *)

(** The temperatures of a run of entries, in order. *)
Definition temperatures (es : list entry) : list Q :=
  map (fun e => air_temperature (instant e)) es.

(** The entries of [es] that fall on the day [key], in order. *)
Definition entries_on (key : string) (es : list entry) : list entry :=
  filter (fun e => String.eqb (dayKey e) key) es.

(** The next-hour precipitation of an entry, an absent amount counting
    for nothing. *)
Definition precipitation_or_zero (e : entry) : Q :=
  match precipitation_of (next_1_hours e) with
  | Some amount => amount
  | None => 0
  end.

(** Every timestamp is a valid date. *)
Definition valid_times (es : list entry) : bool :=
  forallb (fun e => Date_valid (time e)) es.



(** * Properties *)

(** ** Strings and lists *)

(** Proofs that do not speak of a platform primitive drop it first. *)
Ltac forget_platform :=
  repeat match goal with
         | x : Q -> string |- _ => clear x
         | x : string -> Z |- _ => clear x
         | x : string -> string |- _ => clear x
         | x : string -> bool |- _ => clear x
         | x : option string |- _ => clear x
         | x : network |- _ => clear x
         end.


Lemma starts_with_spec (p s : string) :
  JS.starts_with p s = true <-> exists post, s = p ++ post.
Proof.
  revert s; induction p as [|a p IH]; intros s; simpl.
  - split; [intros _; exists s; reflexivity | reflexivity].
  - destruct s as [|b s].
    + split; [discriminate | intros [post H]; discriminate].
    + rewrite andb_true_iff, Ascii.eqb_eq, IH. split.
      * intros [-> [post ->]]. exists post. reflexivity.
      * intros [post H]. injection H as -> ->. split; [reflexivity|].
        exists post. reflexivity.
Qed.

Lemma includes_spec (s needle : string) :
  JS.includes s needle = true <-> occurs_in needle s.
Proof.
  unfold occurs_in. induction s as [|c s IH]; simpl.
  - rewrite orb_false_r, starts_with_spec. split.
    + intros [post H]. exists EmptyString, post. exact H.
    + intros [[|a pre] [post H]]; [exists post; exact H | discriminate].
  - rewrite orb_true_iff, starts_with_spec, IH. split.
    + intros [[post H] | [pre [post H]]].
      * exists EmptyString, post. exact H.
      * exists (String c pre), post. simpl. now rewrite H.
    + intros [[|a pre] [post H]].
      * left. exists post. exact H.
      * right. simpl in H. injection H as _ H. exists pre, post. exact H.
Qed.

Lemma includes_false (s needle : string) :
  JS.includes s needle = false <-> ~ occurs_in needle s.
Proof.
  rewrite <- includes_spec. destruct (JS.includes s needle); split;
    congruence.
Qed.

Lemma find_first {A : Type} (p : A -> bool) (before : list A) (x : A)
      (after : list A) :
  p x = true ->
  (forall y, In y before -> p y = false) ->
  find p (before ++ x :: after)%list = Some x.
Proof.
  intros Hx. induction before as [|y before IH]; intros Hb; simpl.
  - now rewrite Hx.
  - rewrite (Hb y (or_introl eq_refl)). apply IH.
    intros z Hz. apply Hb. now right.
Qed.

Lemma find_none {A : Type} (p : A -> bool) (l : list A) :
  (forall y, In y l -> p y = false) -> find p l = None.
Proof.
  induction l as [|y l IH]; intros H; simpl; [reflexivity|].
  rewrite (H y (or_introl eq_refl)). apply IH.
  intros z Hz. apply H. now right.
Qed.

(** ** Icon mapper *)

(** The chain of tests of [formatWeatherIcon] is the search of the
    priority table. *)
Lemma formatWeatherIcon_table (symbolCode : option string) :
  formatWeatherIcon symbolCode = icon_spec symbolCode.
Proof.
  destruct symbolCode as [[|a s]|]; [reflexivity | | reflexivity].
  unfold formatWeatherIcon, icon_spec, icon_table.
  cbn [find fst snd negb JS.truthy_string].
  repeat match goal with
         | |- context [JS.includes ?c ?n] => destruct (JS.includes c n)
         end; reflexivity.
Qed.

(** C3.  The icon mapper is a function on optional strings that returns
    the glyph of the first of rain, snow, thunder, fog, cloudy, fair,
    clear that occurs in the code; the default glyph when the code is
    absent, empty or contains none of them; and the rain glyph for a code
    that contains both "rain" and "cloudy". *)
Theorem icon_mapper_first_match (symbolCode : option string) :
  (forall code before needle glyph after,
      symbolCode = Some code ->
      icon_table = (before ++ (needle, glyph) :: after)%list ->
      occurs_in needle code ->
      (forall row, In row before -> ~ occurs_in (fst row) code) ->
      formatWeatherIcon symbolCode = glyph) /\
  (symbolCode = None \/ symbolCode = Some EmptyString \/
   (exists code, symbolCode = Some code /\
                 forall row, In row icon_table -> ~ occurs_in (fst row) code) ->
   formatWeatherIcon symbolCode = glyph_default) /\
  (forall code,
      symbolCode = Some code ->
      occurs_in "rain" code -> occurs_in "cloudy" code ->
      formatWeatherIcon symbolCode = glyph_rain).
Proof.
  assert (first :
    forall code before needle glyph after,
      icon_table = (before ++ (needle, glyph) :: after)%list ->
      occurs_in needle code ->
      (forall row, In row before -> ~ occurs_in (fst row) code) ->
      formatWeatherIcon (Some code) = glyph).
  { intros code before needle glyph after Htab Hocc Hbefore.
    rewrite formatWeatherIcon_table. unfold icon_spec. rewrite Htab.
    rewrite find_first; [reflexivity | now apply includes_spec |].
    intros row Hrow. apply includes_false. now apply Hbefore. }
  split; [|split].
  - intros code before needle glyph after -> Htab Hocc Hbefore.
    now apply (first code before needle glyph after).
  - intros [-> | [-> | [code [-> Hnone]]]]; try reflexivity.
    rewrite formatWeatherIcon_table. unfold icon_spec.
    rewrite find_none; [reflexivity|].
    intros row Hrow. apply includes_false. now apply Hnone.
  - intros code -> Hrain _.
    apply (first code [] "rain" glyph_rain (tl icon_table));
      [reflexivity | exact Hrain | intros row []].
Qed.


(** ** Running the clients and the handlers *)

Lemma bind_returned {A B : Type} (m : js A) (k : A -> js B) (w w' : world)
      (a : A) :
  m w = (Returned a, w') -> bind m k w = k a w'.
Proof. intros H. unfold bind. now rewrite H. Qed.

Lemma fetch_failure_delivered (r : reply yr_body) :
  fetch_failure r -> delivered r = None.
Proof.
  destruct r as [m | resp]; simpl; [reflexivity|].
  intros [H | [m H]].
  - now rewrite H.
  - rewrite H. now destruct (ok resp).
Qed.

Lemma fetch_success_delivered (r : reply yr_body) (f : forecast) :
  fetch_success r (WithTimeseries f) <-> delivered r = Some f.
Proof.
  split.
  - intros [resp [-> [Hok Hbody]]]. simpl. now rewrite Hok, Hbody.
  - destruct r as [m | resp]; simpl; [discriminate|].
    destruct (ok resp) eqn:Hok; [|discriminate].
    destruct (body resp) as [m | [| g]] eqn:Hbody; try discriminate.
    intros H. injection H as ->. now exists resp.
Qed.

(** The forecast client never throws: it returns what the service
    delivered, after exactly one request. *)
Lemma fetchHaldenForecast_run (w : world) :
  exists w',
    fetchHaldenForecast w = (Returned (delivered (yr net yr_request)), w') /\
    sent w' = (sent w ++ [yr_request])%list.
Proof.
  unfold fetchHaldenForecast, try_catch, bind, fetch, json, delivered,
    console_error, ret, throw.
  destruct (yr net yr_request) as [m | resp]; simpl.
  - eexists; split; reflexivity.
  - destruct (ok resp); simpl.
    + destruct (body resp) as [m | [| f]]; simpl;
        eexists; split; reflexivity.
    + eexists; split; reflexivity.
Qed.

Lemma get_current_weather_run (w : world) :
  fst (get_current_weather w) =
  match delivered (yr net yr_request) with
  | None => Returned (text_result msg_current_failed)
  | Some data =>
    match timeseries data with
    | [] => Threw (undefined_read "data")
    | current :: _ => Returned (text_result (current_text current))
    end
  end.
Proof.
  destruct (fetchHaldenForecast_run w) as [w' [Hrun _]].
  unfold get_current_weather. rewrite (bind_returned _ _ _ _ _ Hrun).
  destruct (delivered (yr net yr_request)) as [data|]; [|reflexivity].
  now destruct (timeseries data).
Qed.

Lemma get_hourly_forecast_run (w : world) :
  fst (get_hourly_forecast w) =
  match delivered (yr net yr_request) with
  | None => Returned (text_result msg_forecast_failed)
  | Some data =>
    Returned (text_result
                (JS.join nl (hourly_header :: EmptyString :: hourly_lines data)))
  end.
Proof.
  destruct (fetchHaldenForecast_run w) as [w' [Hrun _]].
  unfold get_hourly_forecast. rewrite (bind_returned _ _ _ _ _ Hrun).
  now destruct (delivered (yr net yr_request)).
Qed.

(** The grouping loop runs to its end when every timestamp is a valid
    date, and throws at the first one that is not; it leaves the world as
    it is. *)
Lemma forEach_group_entry (es : list entry) (d : daily) (w : world) :
  forEach group_entry es d w =
  (if valid_times es then Returned (fold_left group_step es d)
   else Threw invalid_time, w).
Proof.
  revert d. induction es as [|e es IH]; intros d; [reflexivity|].
  simpl. unfold bind at 1.
  unfold group_entry, Date_prototype_toISOString, bind, ret, throw.
  destruct (Date_valid (time e)); simpl; [|reflexivity].
  apply IH.
Qed.

Lemma get_3day_forecast_run (w : world) :
  fst (get_3day_forecast w) =
  match delivered (yr net yr_request) with
  | None => Returned (text_result msg_forecast_failed)
  | Some data =>
    if valid_times (timeseries data) then
      Returned (text_result
                  (JS.join nl
                     (daily_header :: EmptyString :: map day_line (days data))))
    else Threw invalid_time
  end.
Proof.
  destruct (fetchHaldenForecast_run w) as [w' [Hrun _]].
  unfold get_3day_forecast. rewrite (bind_returned _ _ _ _ _ Hrun).
  destruct (delivered (yr net yr_request)) as [data|]; [|reflexivity].
  unfold bind. rewrite forEach_group_entry.
  unfold days, group_by_day. now destruct (valid_times (timeseries data)).
Qed.

(** The search client never throws. *)
Lemma braveSearch_returns (query : string) (count : Z) (w : world) :
  exists r w', braveSearch query count w = (Returned r, w').
Proof.
  unfold braveSearch, try_catch, bind, fetch, json, console_error, ret, throw.
  destruct key_configured; simpl; [|eauto].
  destruct (brave net (brave_request query count)) as [m | resp]; simpl;
    [eauto|].
  destruct (ok resp); simpl; [|eauto].
  destruct (body resp); simpl; eauto.
Qed.

Lemma activity_results_returns (searchQuery : string) (w : world) :
  exists text w', activity_results searchQuery w = (Returned text, w').
Proof.
  unfold activity_results.
  destruct key_configured eqn:Hkey; [|unfold ret; eauto].
  destruct (braveSearch_returns searchQuery 2 w) as [r [w' Hrun]].
  rewrite (bind_returned _ _ _ _ _ Hrun).
  destruct (has_results r); unfold ret; eauto.
Qed.

Lemma suggest_activities_run (w : world) :
  exists w1,
    fst (fetchHaldenForecast w) = Returned (delivered (yr net yr_request)) /\
    w1 = snd (fetchHaldenForecast w) /\
    fst (suggest_activities w) =
    match delivered (yr net yr_request) with
    | None => Returned (text_result msg_activities_failed)
    | Some data =>
      match timeseries data with
      | [] => Threw (undefined_read "data")
      | current :: _ =>
        let temp := air_temperature (instant current) in
        let wind := wind_speed (instant current) in
        let hasRain :=
          JS.gt_undef (precipitation_of (next_1_hours current)) 0 in
        match fst (activity_results (snd (advise hasRain temp wind)) w1) with
        | Returned activityResults =>
          Returned (text_result
                      (JS.join nl
                         ([activity_header temp wind; EmptyString] ++
                          fst (advise hasRain temp wind) ++
                          [activityResults])%list))
        | Threw e => Threw e
        end
      end
    end.
Proof.
  destruct (fetchHaldenForecast_run w) as [w' [Hrun _]].
  exists w'. rewrite Hrun. split; [reflexivity|]. split; [reflexivity|].
  unfold suggest_activities. rewrite (bind_returned _ _ _ _ _ Hrun).
  destruct (delivered (yr net yr_request)) as [data|]; [|reflexivity].
  destruct (timeseries data) as [|current rest]; [reflexivity|].
  cbn [nth_error].
  destruct (advise _ _ _) as [suggestions searchQuery] eqn:Hadv.
  cbn [fst snd].
  destruct (activity_results_returns searchQuery w') as [text [w2 Hact]].
  rewrite (bind_returned _ _ _ _ _ Hact). now rewrite Hact.
Qed.

(** ** Failure of the forecast fetch *)

(** C4.  Whatever the forecast service answers, [fetchHaldenForecast]
    returns and does not throw; when the request fails (network-level
    error, status outside 2xx, body that is not JSON) it returns the
    sentinel, and each of the four handlers then returns its fixed failure
    text as its only content block. *)
Theorem fetch_failure_is_sentinel (w : world) :
  (exists r w', fetchHaldenForecast w = (Returned r, w')) /\
  (fetch_failure (yr net yr_request) ->
   fst (fetchHaldenForecast w) = Returned None /\
   fst (get_current_weather w) = Returned (text_result msg_current_failed) /\
   fst (get_hourly_forecast w) = Returned (text_result msg_forecast_failed) /\
   fst (get_3day_forecast w) = Returned (text_result msg_forecast_failed) /\
   fst (suggest_activities w) = Returned (text_result msg_activities_failed)).
Proof.
  destruct (fetchHaldenForecast_run w) as [w' [Hrun _]].
  split; [eauto|].
  intros Hfail. apply fetch_failure_delivered in Hfail.
  pose proof (get_current_weather_run w) as Hcur.
  pose proof (get_hourly_forecast_run w) as Hhour.
  pose proof (get_3day_forecast_run w) as Hday.
  destruct (suggest_activities_run w) as [w1 [_ [_ Hact]]].
  rewrite Hfail in *. rewrite Hrun. auto.
Qed.

(** ** The search client *)

Lemma key_configured_credential :
  key_configured = true <-> credential BRAVE_API_KEY.
Proof.
  unfold key_configured, credential.
  destruct BRAVE_API_KEY as [[|a k]|]; simpl; split; try discriminate.
  - intros [k [H Hk]]. injection H as <-. now contradiction Hk.
  - intros _. exists (String a k). split; [reflexivity | discriminate].
  - reflexivity.
  - intros [k [H _]]. discriminate.
Qed.

(** C5.  Without a credential the search returns the sentinel and the
    list of requests issued is unchanged; with a credential and a
    successful response it returns the parsed body after exactly one
    request, so the result list comes back as upstream sent it, the empty
    list included, and is not the sentinel. *)
Theorem braveSearch_credential (query : string) (count : Z) (w : world) :
  (~ credential BRAVE_API_KEY ->
   fst (braveSearch query count w) = Returned None /\
   sent (snd (braveSearch query count w)) = sent w) /\
  (credential BRAVE_API_KEY ->
   forall parsed,
     fetch_success (brave net (brave_request query count)) parsed ->
     fst (braveSearch query count w) = Returned (Some parsed) /\
     sent (snd (braveSearch query count w)) =
     (sent w ++ [brave_request query count])%list /\
     forall found,
       web parsed = Some {| results := Some found |} ->
       exists r,
         fst (braveSearch query count w) = Returned r /\
         r <> None /\ web_results r = Some found).
Proof.
  rewrite <- key_configured_credential.
  unfold braveSearch, try_catch, bind, fetch, json, console_error, ret, throw.
  destruct key_configured; split; try congruence.
  - intros _ parsed [resp [-> [Hok Hbody]]]. rewrite Hok, Hbody. simpl.
    split; [reflexivity|]. split; [reflexivity|].
    intros found Hweb. exists (Some parsed).
    split; [reflexivity|]. split; [discriminate|].
    simpl. now rewrite Hweb.
  - intros _. split; reflexivity.
Qed.

(** ** Empty timeseries *)

(** C6, as the code has it.  A successfully parsed response is handed to
    the handlers whatever the length of its timeseries: an empty one is
    not the sentinel, and no handler turns it into its failure text.  On
    an empty timeseries the hourly and the 3-day handlers return their
    header with no line; the two handlers that read index 0 return a
    formatted text whenever the timeseries is not empty. *)
Theorem empty_timeseries_not_failure (w : world) (f : forecast) :
  fetch_success (yr net yr_request) (WithTimeseries f) ->
  fst (fetchHaldenForecast w) = Returned (Some f) /\
  (timeseries f = [] ->
   fst (get_hourly_forecast w) =
   Returned (text_result (JS.join nl [hourly_header; EmptyString])) /\
   fst (get_3day_forecast w) =
   Returned (text_result (JS.join nl [daily_header; EmptyString]))) /\
  (forall current rest,
      timeseries f = current :: rest ->
      fst (get_current_weather w) =
      Returned (text_result (current_text current)) /\
      exists text, fst (suggest_activities w) = Returned (text_result text)).
Proof.
  intros Hok. apply fetch_success_delivered in Hok.
  destruct (fetchHaldenForecast_run w) as [w' [Hrun _]].
  pose proof (get_current_weather_run w) as Hcur.
  pose proof (get_hourly_forecast_run w) as Hhour.
  pose proof (get_3day_forecast_run w) as Hday.
  destruct (suggest_activities_run w) as [w1 [_ [_ Hact]]].
  rewrite Hok in *. rewrite Hrun. split; [reflexivity|]. split.
  - intros Hempty. unfold hourly_lines, days, group_by_day in *.
    rewrite Hempty in *. auto.
  - intros current rest Hts. rewrite Hts in *. split; [exact Hcur|].
    cbv zeta in Hact.
    destruct (fst (activity_results _ w1)) as [text | e] eqn:Hres.
    + eauto.
    + destruct (activity_results_returns
                  (snd (advise
                          (JS.gt_undef
                             (precipitation_of (next_1_hours current)) 0)
                          (air_temperature (instant current))
                          (wind_speed (instant current)))) w1)
        as [text [w2 Hret]].
      rewrite Hret in Hres. discriminate.
Qed.

(** Reading index 0 of an empty timeseries gives [undefined], and the
    property access that follows raises. *)
Lemma index_zero_of_empty_timeseries (w : world) (f : forecast) :
  fetch_success (yr net yr_request) (WithTimeseries f) ->
  timeseries f = [] ->
  fst (get_current_weather w) = Threw (undefined_read "data") /\
  fst (suggest_activities w) = Threw (undefined_read "data").
Proof.
  intros Hok Hempty. apply fetch_success_delivered in Hok.
  pose proof (get_current_weather_run w) as Hcur.
  destruct (suggest_activities_run w) as [w1 [_ [_ Hact]]].
  rewrite Hok, Hempty in *. auto.
Qed.

(** ** Comparisons *)

Lemma gt_iff (x y : Q) : JS.gt x y = true <-> y < x.
Proof.
  unfold JS.gt. rewrite negb_true_iff, <- not_true_iff_false, Qle_bool_iff.
  split; [apply Qnot_le_lt | apply Qlt_not_le].
Qed.

Lemma lt_iff (x y : Q) : JS.lt x y = true <-> x < y.
Proof. apply gt_iff. Qed.

Lemma gt_false_iff (x y : Q) : JS.gt x y = false <-> ~ y < x.
Proof.
  rewrite <- gt_iff. destruct (JS.gt x y); split; congruence.
Qed.

Lemma lt_false_iff (x y : Q) : JS.lt x y = false <-> ~ x < y.
Proof. apply gt_false_iff. Qed.

Lemma gt_undef_rains (amount : option Q) :
  JS.gt_undef amount 0 = true <-> rains amount.
Proof.
  unfold rains. destruct amount as [v|]; simpl.
  - rewrite gt_iff. split.
    + intros H. now exists v.
    + intros [v' [H Hv]]. now injection H as ->.
  - split; [discriminate | intros [v [H _]]; discriminate].
Qed.

Lemma gt_undef_dry (amount : option Q) :
  JS.gt_undef amount 0 = false <-> ~ rains amount.
Proof.
  rewrite <- gt_undef_rains. destruct (JS.gt_undef amount 0); split;
    congruence.
Qed.

(** ** Activity suggestions *)

(** The requests the search step issues. *)
Lemma activity_results_sent (searchQuery : string) (w : world) :
  sent (snd (activity_results searchQuery w)) =
  if key_configured then (sent w ++ [brave_request searchQuery 2])%list
  else sent w.
Proof.
  unfold activity_results, braveSearch, try_catch, bind, fetch, json,
    console_error, ret, throw.
  destruct key_configured; simpl; [|reflexivity].
  destruct (brave net (brave_request searchQuery 2)) as [m | resp]; simpl;
    [reflexivity|].
  destruct (ok resp); simpl; [|reflexivity].
  destruct (body resp) as [m | parsed]; simpl; [reflexivity|].
  now destruct (has_results (Some parsed)).
Qed.

(** A run of the activity handler on a forecast with a first entry. *)
Lemma suggest_activities_returned (w : world) (f : forecast)
      (current : entry) (rest : list entry) :
  delivered (yr net yr_request) = Some f ->
  timeseries f = current :: rest ->
  let temp := air_temperature (instant current) in
  let wind := wind_speed (instant current) in
  let hasRain := JS.gt_undef (precipitation_of (next_1_hours current)) 0 in
  exists w1 activityResults w2,
    fetchHaldenForecast w = (Returned (Some f), w1) /\
    sent w1 = (sent w ++ [yr_request])%list /\
    activity_results (snd (advise hasRain temp wind)) w1 =
    (Returned activityResults, w2) /\
    suggest_activities w =
    (Returned (text_result
                 (JS.join nl
                    ([activity_header temp wind; EmptyString] ++
                     fst (advise hasRain temp wind) ++
                     [activityResults])%list)), w2).
Proof.
  intros Hf Hts temp wind hasRain.
  destruct (fetchHaldenForecast_run w) as [w1 [Hrun Hsent]].
  rewrite Hf in Hrun.
  destruct (activity_results_returns (snd (advise hasRain temp wind)) w1)
    as [text [w2 Hact]].
  exists w1, text, w2. repeat split; try assumption.
  unfold suggest_activities. rewrite (bind_returned _ _ _ _ _ Hrun).
  rewrite Hts. cbn [nth_error]. fold temp wind hasRain.
  destruct (advise hasRain temp wind) as [suggestions searchQuery].
  cbn [fst snd] in *. now rewrite (bind_returned _ _ _ _ _ Hact).
Qed.

(** The band and the wind warning that [advise] computes. *)
Lemma advise_bands (amount : option Q) (temp wind : Q) :
  exists message query windy,
    advise (JS.gt_undef amount 0) temp wind =
    (message :: windy, query_prefix ++ query) /\
    ((rains amount /\ message = msg_indoor /\ query = query_indoor) \/
     (~ rains amount /\ 15 < temp /\
      message = msg_outdoor /\ query = query_outdoor) \/
     (~ rains amount /\ ~ 15 < temp /\ temp < 5 /\
      message = msg_cold /\ query = query_cold) \/
     (~ rains amount /\ ~ 15 < temp /\ ~ temp < 5 /\
      message = msg_mild /\ query = query_mild)) /\
    (10 < wind -> windy = [msg_windy]) /\
    (~ 10 < wind -> windy = []).
Proof.
  unfold advise.
  assert (Hwind : exists windy,
             (if JS.gt wind 10 then [msg_windy] else []) = windy /\
             (10 < wind -> windy = [msg_windy]) /\
             (~ 10 < wind -> windy = [])).
  { destruct (JS.gt wind 10) eqn:Hw; eexists; split; try reflexivity.
    - apply gt_iff in Hw. split; [reflexivity | contradiction].
    - apply gt_false_iff in Hw. split; [contradiction | reflexivity]. }
  destruct Hwind as [windy [Hwindy Hw]].
  destruct (JS.gt_undef amount 0) eqn:Hrain;
    [apply gt_undef_rains in Hrain | apply gt_undef_dry in Hrain].
  - exists msg_indoor, query_indoor, windy. split; [|split; [auto 10|exact Hw]].
    rewrite <- Hwindy. now destruct (JS.gt wind 10).
  - destruct (JS.gt temp 15) eqn:Hwarm;
      [apply gt_iff in Hwarm | apply gt_false_iff in Hwarm].
    + exists msg_outdoor, query_outdoor, windy.
      split; [|split; [auto 10|exact Hw]].
      rewrite <- Hwindy. now destruct (JS.gt wind 10).
    + destruct (JS.lt temp 5) eqn:Hcold;
        [apply lt_iff in Hcold | apply lt_false_iff in Hcold].
      * exists msg_cold, query_cold, windy.
        split; [|split; [auto 10|exact Hw]].
        rewrite <- Hwindy. now destruct (JS.gt wind 10).
      * exists msg_mild, query_mild, windy.
        split; [|split; [auto 10|exact Hw]].
        rewrite <- Hwindy. now destruct (JS.gt wind 10).
Qed.

(** C1.  On a successfully fetched forecast the activity handler puts
    exactly one band message after its header, chosen in the order
    precipitation, warm, cold, mild, and searches with the query of that
    band; the wind warning follows the band message exactly when the wind
    speed exceeds 10, whatever the band. *)
Theorem activity_bands (w : world) (f : forecast) (current : entry)
        (rest : list entry) :
  fetch_success (yr net yr_request) (WithTimeseries f) ->
  timeseries f = current :: rest ->
  let temp := air_temperature (instant current) in
  let wind := wind_speed (instant current) in
  let amount := precipitation_of (next_1_hours current) in
  exists message query windy activityResults,
    ((rains amount /\ message = msg_indoor /\ query = query_indoor) \/
     (~ rains amount /\ 15 < temp /\
      message = msg_outdoor /\ query = query_outdoor) \/
     (~ rains amount /\ ~ 15 < temp /\ temp < 5 /\
      message = msg_cold /\ query = query_cold) \/
     (~ rains amount /\ ~ 15 < temp /\ ~ temp < 5 /\
      message = msg_mild /\ query = query_mild)) /\
    (10 < wind -> windy = [msg_windy]) /\
    (~ 10 < wind -> windy = []) /\
    fst (suggest_activities w) =
    Returned (text_result
                (JS.join nl
                   ([activity_header temp wind; EmptyString] ++
                    [message] ++ windy ++ [activityResults])%list)) /\
    fst (activity_results (query_prefix ++ query)
           (snd (fetchHaldenForecast w))) = Returned activityResults /\
    (credential BRAVE_API_KEY ->
     sent (snd (suggest_activities w)) =
     (sent w ++ [yr_request; brave_request (query_prefix ++ query) 2])%list) /\
    (~ credential BRAVE_API_KEY ->
     sent (snd (suggest_activities w)) = (sent w ++ [yr_request])%list /\
     activityResults = msg_enable_search).
Proof.
  intros Hok Hts temp wind amount.
  apply fetch_success_delivered in Hok.
  destruct (suggest_activities_returned w f current rest Hok Hts)
    as [w1 [text [w2 [Hrun [Hsent [Hact Hall]]]]]].
  fold temp wind amount in Hact, Hall.
  destruct (advise_bands amount temp wind)
    as [message [query [windy [Hadv [Hband [Hw1 Hw0]]]]]].
  rewrite Hadv in Hact, Hall. cbn [fst snd] in Hact, Hall.
  exists message, query, windy, text.
  split; [exact Hband|]. split; [exact Hw1|]. split; [exact Hw0|].
  rewrite Hall, Hrun. cbn [fst snd]. rewrite Hact. cbn [fst snd].
  split; [reflexivity|]. split; [reflexivity|].
  pose proof (activity_results_sent (query_prefix ++ query) w1) as Hs.
  rewrite Hact in Hs. cbn [snd] in Hs. rewrite Hsent in Hs.
  rewrite <- key_configured_credential. split.
  - intros Hkey. rewrite Hkey in Hs. rewrite Hs.
    now rewrite <- app_assoc.
  - intros Hkey. apply not_true_is_false in Hkey. rewrite Hkey in Hs.
    split; [exact Hs|].
    unfold activity_results in Hact. rewrite Hkey in Hact.
    unfold ret in Hact. congruence.
Qed.

(** ** Hourly forecast *)

(** The precipitation note of an hourly line. *)
Lemma hourly_line_note (e : entry) :
  exists note,
    hourly_line e =
    show_int (Date_getHours (time e)) ++ ":00 " ++
    formatWeatherIcon (symbol_code_of (next_1_hours e)) ++ " " ++
    Number_toString (air_temperature (instant e)) ++ "°C, " ++
    Number_toString (wind_speed (instant e)) ++ " m/s" ++ note /\
    (forall v, precipitation_of (next_1_hours e) = Some v -> 0 < v ->
               note = ", " ++ Number_toString v ++ "mm rain") /\
    (~ rains (precipitation_of (next_1_hours e)) -> note = EmptyString).
Proof.
  unfold hourly_line.
  destruct (precipitation_of (next_1_hours e)) as [v|] eqn:Hamount; simpl.
  - unfold JS.truthy_number.
    destruct (Qeq_bool v 0) eqn:Hzero; simpl.
    + apply Qeq_bool_iff in Hzero.
      eexists. split; [reflexivity|]. split; [|reflexivity].
      intros v' Hv' Hpos. injection Hv' as <-. rewrite Hzero in Hpos.
      now apply Qlt_irrefl in Hpos.
    + destruct (JS.gt v 0) eqn:Hgt.
      * eexists. split; [reflexivity|]. split.
        -- intros v' Hv' _. now injection Hv' as <-.
        -- intros Hdry. contradiction Hdry. exists v.
           split; [reflexivity | now apply gt_iff].
      * eexists. split; [reflexivity|]. split; [|reflexivity].
        intros v' Hv' Hpos. injection Hv' as <-.
        apply gt_false_iff in Hgt. contradiction.
  - eexists. split; [reflexivity|]. split; [|reflexivity].
    intros v Hv. discriminate.
Qed.

(** C9.  On a successfully fetched forecast the hourly handler returns
    its header followed by min(12, length of the timeseries) lines, the
    i-th line made from the i-th entry: hour, icon, temperature, wind, and
    the precipitation note exactly when the next-hour amount of that entry
    is greater than zero. *)
Theorem hourly_forecast_lines (w : world) (f : forecast) :
  fetch_success (yr net yr_request) (WithTimeseries f) ->
  exists lines,
    fst (get_hourly_forecast w) =
    Returned (text_result
                (JS.join nl (hourly_header :: EmptyString :: lines))) /\
    List.length lines = Nat.min 12 (List.length (timeseries f)) /\
    forall i, (i < List.length lines)%nat ->
      exists e note,
        nth_error (timeseries f) i = Some e /\
        nth_error lines i =
        Some (show_int (Date_getHours (time e)) ++ ":00 " ++
              formatWeatherIcon (symbol_code_of (next_1_hours e)) ++ " " ++
              Number_toString (air_temperature (instant e)) ++ "°C, " ++
              Number_toString (wind_speed (instant e)) ++ " m/s" ++ note) /\
        (forall v, precipitation_of (next_1_hours e) = Some v -> 0 < v ->
                   note = ", " ++ Number_toString v ++ "mm rain") /\
        (~ rains (precipitation_of (next_1_hours e)) -> note = EmptyString).
Proof.
  intros Hok. apply fetch_success_delivered in Hok.
  pose proof (get_hourly_forecast_run w) as Hrun. rewrite Hok in Hrun.
  exists (hourly_lines f). split; [exact Hrun|].
  unfold hourly_lines. rewrite length_map, length_firstn.
  split; [reflexivity|].
  intros i Hi.
  assert (Hi12 : (i < 12)%nat) by lia.
  assert (Hlen : (i < List.length (timeseries f))%nat) by lia.
  destruct (nth_error (timeseries f) i) as [e|] eqn:He;
    [|apply nth_error_None in He; lia].
  destruct (hourly_line_note e) as [note [Hline [Hwet Hdry]]].
  exists e, note. split; [reflexivity|]. split; [|split; assumption].
  rewrite nth_error_map, nth_error_firstn.
  apply Nat.ltb_lt in Hi12. rewrite Hi12, He. simpl. now rewrite Hline.
Qed.

(** ** The object [dailyData] *)

Lemma daily_get_none (key : string) (d : daily) :
  daily_get key d = None <-> ~ In key (map fst d).
Proof.
  forget_platform.
  induction d as [|[k v] d IH]; simpl; [tauto|].
  destruct (String.eqb k key) eqn:Hk.
  - apply String.eqb_eq in Hk. split; [discriminate | tauto].
  - apply String.eqb_neq in Hk. rewrite IH. tauto.
Qed.

Lemma daily_get_In (key : string) (v : day_data) (d : daily) :
  NoDup (map fst d) -> In (key, v) d -> daily_get key d = Some v.
Proof.
  forget_platform.
  induction d as [|[k x] d IH]; simpl; [tauto|].
  intros Hnodup [Heq | Hin].
  - injection Heq as -> ->. now rewrite String.eqb_refl.
  - inversion Hnodup as [|? ? Hnotin Hrest]; subst.
    destruct (String.eqb k key) eqn:Hk.
    + apply String.eqb_eq in Hk. subst k. contradiction Hnotin.
      apply (in_map fst) in Hin. exact Hin.
    + now apply IH.
Qed.

Lemma daily_modify_keys (key : string) (f : day_data -> day_data) (d : daily) :
  map fst (daily_modify key f d) = map fst d.
Proof.
  induction d as [|[k v] d IH]; simpl; [reflexivity|].
  destruct (String.eqb k key); simpl; [reflexivity | now rewrite IH].
Qed.

Lemma daily_get_modify (k key : string) (f : day_data -> day_data)
      (d : daily) :
  daily_get k (daily_modify key f d) =
  if String.eqb key k then option_map f (daily_get k d) else daily_get k d.
Proof.
  induction d as [|[k' v] d IH]; simpl; [now destruct (String.eqb key k)|].
  destruct (String.eqb k' key) eqn:Hkey; simpl.
  - apply String.eqb_eq in Hkey. subst k'.
    now destruct (String.eqb key k).
  - destruct (String.eqb k' k) eqn:Hk; [|exact IH].
    apply String.eqb_eq in Hk. subst k'.
    rewrite String.eqb_sym in Hkey. now rewrite Hkey.
Qed.

Lemma daily_get_app (k key : string) (v : day_data) (d : daily) :
  daily_get k (d ++ [(key, v)])%list =
  match daily_get k d with
  | Some x => Some x
  | None => if String.eqb key k then Some v else None
  end.
Proof.
  induction d as [|[k' x] d IH]; simpl; [reflexivity|].
  now destruct (String.eqb k' k).
Qed.

Lemma daily_ensure_keys (key : string) (d : daily) :
  (In key (map fst d) -> daily_ensure key d = d) /\
  (~ In key (map fst d) ->
   daily_ensure key d = (d ++ [(key, empty_day)])%list).
Proof.
  unfold daily_ensure.
  destruct (daily_get key d) as [v|] eqn:Hget.
  - split; [reflexivity|]. intros Hnot.
    apply daily_get_none in Hnot. congruence.
  - split; [|reflexivity]. intros Hin.
    apply daily_get_none in Hget. contradiction.
Qed.

Lemma daily_get_ensure (k key : string) (d : daily) :
  daily_get k (daily_ensure key d) =
  match daily_get k d with
  | Some x => Some x
  | None => if String.eqb key k then Some empty_day else None
  end.
Proof.
  unfold daily_ensure.
  destruct (daily_get key d) as [v|] eqn:Hget.
  - destruct (daily_get k d) eqn:Hk; [reflexivity|].
    destruct (String.eqb key k) eqn:Heq; [|reflexivity].
    apply String.eqb_eq in Heq. congruence.
  - apply daily_get_app.
Qed.

(** ** Distinct keys in the order of first occurrence *)

Lemma first_seen_In (k : string) (l : list string) :
  In k (first_seen l) <-> In k l.
Proof.
  forget_platform.
  induction l as [|a l IH]; simpl; [tauto|].
  rewrite filter_In, IH, negb_true_iff.
  destruct (String.eqb k a) eqn:Hk.
  - apply String.eqb_eq in Hk. subst. split; [tauto | now left].
  - apply String.eqb_neq in Hk. split.
    + intros [H | [H _]]; [now left | now right].
    + intros [H | H]; [now left | right; now split].
Qed.

Lemma first_seen_NoDup (l : list string) : NoDup (first_seen l).
Proof.
  induction l as [|a l IH]; simpl; constructor.
  - rewrite filter_In, String.eqb_refl. intros [_ H]. discriminate.
  - now apply NoDup_filter.
Qed.

Lemma first_seen_snoc (k : string) (l : list string) :
  (In k l -> first_seen (l ++ [k]) = first_seen l) /\
  (~ In k l -> first_seen (l ++ [k]) = (first_seen l ++ [k])%list).
Proof.
  forget_platform.
  induction l as [|a l [IHin IHout]]; simpl.
  - split; [tauto | reflexivity].
  - destruct (in_dec string_dec k l) as [Hin | Hout].
    + split; [|tauto]. intros _. now rewrite IHin.
    + rewrite (IHout Hout), filter_app. simpl.
      destruct (String.eqb k a) eqn:Hk; simpl.
      * apply String.eqb_eq in Hk. subst a.
        split; [intros _; now rewrite app_nil_r | tauto].
      * apply String.eqb_neq in Hk. split; [|reflexivity].
        intros [H | H]; [congruence | contradiction].
Qed.

(** ** Grouping by day *)

Lemma group_step_keys (d : daily) (e : entry) :
  map fst (group_step d e) = map fst (daily_ensure (dayKey e) d).
Proof.
  unfold group_step, group_under.
  destruct (precipitation_of (next_1_hours e)) as [amount|];
    [destruct (JS.truthy_number amount)|];
    (destruct (symbol_code_of (next_1_hours e)) as [code|];
     [destruct (JS.truthy_string code)|]);
    now rewrite ?daily_modify_keys.
Qed.

(** The callback changes the data of the day of the entry, and of no
    other day. *)
Lemma group_step_get (k : string) (d : daily) (e : entry) :
  daily_get k (group_step d e) =
  if String.eqb (dayKey e) k
  then Some (absorb e match daily_get k d with
                      | Some v => v
                      | None => empty_day
                      end)
  else daily_get k d.
Proof.
  unfold group_step, group_under, absorb.
  destruct (precipitation_of (next_1_hours e)) as [amount|];
    [destruct (JS.truthy_number amount)|];
    (destruct (symbol_code_of (next_1_hours e)) as [code|];
     [destruct (JS.truthy_string code)|]);
    rewrite ?daily_get_modify, daily_get_ensure;
    destruct (String.eqb (dayKey e) k);
    destruct (daily_get k d); reflexivity.
Qed.

Lemma group_by_day_snoc (es : list entry) (e : entry) :
  group_by_day (es ++ [e]) = group_step (group_by_day es) e.
Proof. unfold group_by_day. now rewrite fold_left_app. Qed.

Lemma entries_on_snoc (k : string) (es : list entry) (e : entry) :
  entries_on k (es ++ [e]) =
  (entries_on k es ++ if String.eqb (dayKey e) k then [e] else [])%list.
Proof.
  unfold entries_on. rewrite filter_app. simpl.
  now destruct (String.eqb (dayKey e) k).
Qed.

(** The day keys of the grouped data are the distinct day keys of the
    entries, in the order of their first occurrence. *)
Lemma group_by_day_keys (es : list entry) :
  map fst (group_by_day es) = first_seen (map dayKey es).
Proof.
  induction es as [|e es IH] using rev_ind; [reflexivity|].
  rewrite group_by_day_snoc, group_step_keys, map_app. simpl.
  destruct (first_seen_snoc (dayKey e) (map dayKey es)) as [Hin Hout].
  destruct (daily_ensure_keys (dayKey e) (group_by_day es)) as [Ein Eout].
  rewrite IH, first_seen_In in Ein, Eout.
  destruct (in_dec string_dec (dayKey e) (map dayKey es)) as [H | H].
  - now rewrite (Ein H), (Hin H).
  - rewrite (Eout H), (Hout H), map_app, IH. reflexivity.
Qed.

(** The data stored for a day is what its entries leave, in order. *)
Lemma group_by_day_get (k : string) (es : list entry) :
  daily_get k (group_by_day es) =
  match entries_on k es with
  | [] => None
  | _ :: _ => Some (absorb_all (entries_on k es))
  end.
Proof.
  induction es as [|e es IH] using rev_ind; [reflexivity|].
  rewrite group_by_day_snoc, group_step_get, entries_on_snoc, IH.
  destruct (String.eqb (dayKey e) k).
  - unfold absorb_all. rewrite fold_left_app. simpl.
    destruct (entries_on k es); reflexivity.
  - now rewrite app_nil_r.
Qed.

Lemma days_rows (f : forecast) (key : string) (data : day_data) :
  In (key, data) (days f) ->
  entries_on key (timeseries f) <> [] /\
  data = absorb_all (entries_on key (timeseries f)).
Proof.
  unfold days. intros Hin.
  assert (Hall : In (key, data) (group_by_day (timeseries f))).
  { rewrite <- (firstn_skipn 3 (group_by_day (timeseries f))).
    apply in_or_app. now left. }
  apply daily_get_In in Hall;
    [|rewrite group_by_day_keys; apply first_seen_NoDup].
  rewrite group_by_day_get in Hall.
  destruct (entries_on key (timeseries f)); [discriminate|].
  split; [discriminate | congruence].
Qed.

(** ** What the entries of a day leave *)

Lemma absorb_temps (e : entry) (v : day_data) :
  temps (absorb e v) = (temps v ++ [air_temperature (instant e)])%list.
Proof.
  unfold absorb.
  destruct (precipitation_of (next_1_hours e)) as [amount|];
    [destruct (JS.truthy_number amount)|];
    (destruct (symbol_code_of (next_1_hours e)) as [code|];
     [destruct (JS.truthy_string code)|]);
    reflexivity.
Qed.

(** An entry adds its amount to the precipitation of its day when the
    amount is present and not zero, and leaves it as it is otherwise. *)
Lemma absorb_precipitation (e : entry) (v : day_data) :
  precipitation (absorb e v) =
  fold_left JS.add (rain_amounts [e]) (precipitation v).
Proof.
  unfold absorb, rain_amounts. simpl.
  destruct (precipitation_of (next_1_hours e)) as [amount|];
    [destruct (JS.truthy_number amount)|];
    (destruct (symbol_code_of (next_1_hours e)) as [code|];
     [destruct (JS.truthy_string code)|]);
    reflexivity.
Qed.

Lemma fold_absorb_temps (es : list entry) (v : day_data) :
  temps (fold_left (fun v e => absorb e v) es v) =
  (temps v ++ temperatures es)%list.
Proof.
  revert v. induction es as [|e es IH]; intros v; simpl.
  - now rewrite app_nil_r.
  - rewrite IH, absorb_temps, <- app_assoc. reflexivity.
Qed.

Lemma fold_absorb_precipitation (es : list entry) (v : day_data) :
  precipitation (fold_left (fun v e => absorb e v) es v) =
  fold_left JS.add (rain_amounts es) (precipitation v).
Proof.
  revert v. induction es as [|e es IH]; intros v; [reflexivity|].
  simpl fold_left at 1. rewrite IH, absorb_precipitation.
  unfold rain_amounts. simpl. now rewrite app_nil_r, fold_left_app.
Qed.

(** ** Minimum and maximum *)

Lemma Math_min_fold (l : list Q) (m0 : Q) :
  exists m,
    fold_left
      (fun acc x =>
         match acc with
         | JS.Finite m => if JS.lt x m then JS.Finite x else JS.Finite m
         | JS.PlusInfinity => JS.Finite x
         | JS.MinusInfinity => JS.MinusInfinity
         end) l (JS.Finite m0) = JS.Finite m /\
    (m = m0 \/ In m l) /\ m <= m0 /\ forall x, In x l -> m <= x.
Proof.
  forget_platform.
  revert m0. induction l as [|x l IH]; intros m0; simpl.
  - exists m0. repeat split; [now left | lra | tauto].
  - destruct (JS.lt x m0) eqn:Hlt;
      [apply lt_iff in Hlt; destruct (IH x) as [m [Hm [Hin [Hle Hall]]]]
      |apply lt_false_iff in Hlt;
       destruct (IH m0) as [m [Hm [Hin [Hle Hall]]]]];
      exists m; (split; [exact Hm|]);
      (split; [destruct Hin as [-> | Hin]; auto|]);
      (split; [lra|]); intros y [<- | Hy]; try lra; now apply Hall.
Qed.

Lemma Math_max_fold (l : list Q) (m0 : Q) :
  exists m,
    fold_left
      (fun acc x =>
         match acc with
         | JS.Finite m => if JS.gt x m then JS.Finite x else JS.Finite m
         | JS.MinusInfinity => JS.Finite x
         | JS.PlusInfinity => JS.PlusInfinity
         end) l (JS.Finite m0) = JS.Finite m /\
    (m = m0 \/ In m l) /\ m0 <= m /\ forall x, In x l -> x <= m.
Proof.
  forget_platform.
  revert m0. induction l as [|x l IH]; intros m0; simpl.
  - exists m0. repeat split; [now left | lra | tauto].
  - destruct (JS.gt x m0) eqn:Hgt;
      [apply gt_iff in Hgt; destruct (IH x) as [m [Hm [Hin [Hle Hall]]]]
      |apply gt_false_iff in Hgt;
       destruct (IH m0) as [m [Hm [Hin [Hle Hall]]]]];
      exists m; (split; [exact Hm|]);
      (split; [destruct Hin as [-> | Hin]; auto|]);
      (split; [lra|]); intros y [<- | Hy]; try lra; now apply Hall.
Qed.

Lemma Math_min_minimum (l : list Q) :
  l <> [] -> exists m, JS.Math_min l = JS.Finite m /\ is_minimum l m.
Proof.
  destruct l as [|x l]; [congruence|]. intros _.
  unfold JS.Math_min, is_minimum. simpl.
  destruct (Math_min_fold l x) as [m [Hm [Hin [Hle Hall]]]].
  exists m. split; [exact Hm|].
  split; [destruct Hin as [-> | Hin]; auto|].
  intros y [<- | Hy]; [exact Hle | now apply Hall].
Qed.

Lemma Math_max_maximum (l : list Q) :
  l <> [] -> exists m, JS.Math_max l = JS.Finite m /\ is_maximum l m.
Proof.
  destruct l as [|x l]; [congruence|]. intros _.
  unfold JS.Math_max, is_maximum. simpl.
  destruct (Math_max_fold l x) as [m [Hm [Hin [Hle Hall]]]].
  exists m. split; [exact Hm|].
  split; [destruct Hin as [-> | Hin]; auto|].
  intros y [<- | Hy]; [exact Hle | now apply Hall].
Qed.

(** What is stored for an emitted day. *)
Lemma days_summary (f : forecast) (key : string) (data : day_data) :
  In (key, data) (days f) ->
  entries_on key (timeseries f) <> [] /\
  temps data = temperatures (entries_on key (timeseries f)) /\
  precipitation data =
  running_sum (rain_amounts (entries_on key (timeseries f))).
Proof.
  intros Hin. apply days_rows in Hin. destruct Hin as [Hne ->].
  split; [exact Hne|]. unfold absorb_all.
  rewrite fold_absorb_temps, fold_absorb_precipitation.
  split; reflexivity.
Qed.

(** ** Three-day forecast *)

(** C2.  On a successfully fetched forecast whose timestamps are valid
    dates the 3-day handler prints one line per emitted day.  The emitted
    days are the first three distinct UTC dates of the timestamps, in the
    order of their first occurrence; each line reports the minimum and the
    maximum of the temperatures of the entries of its day, and its
    precipitation is the sum of the next-hour amounts of these entries as
    the loop forms it: from zero, in entry order, each addition rounded to
    a double, an absent amount (and a zero one) adding nothing.  Four
    entries on two days with temperatures 2, 8 and 10, 1 give two days
    with minimum and maximum (2, 8) and (1, 10), in day order. *)
Theorem three_day_aggregation (w : world) (f : forecast) :
  fetch_success (yr net yr_request) (WithTimeseries f) ->
  valid_times (timeseries f) = true ->
  fst (get_3day_forecast w) =
  Returned (text_result
              (JS.join nl
                 (daily_header :: EmptyString :: map day_line (days f)))) /\
  map fst (days f) = firstn 3 (first_seen (map dayKey (timeseries f))) /\
  (forall key data,
      In (key, data) (days f) ->
      let entries := entries_on key (timeseries f) in
      temps data = temperatures entries /\
      precipitation data = running_sum (rain_amounts entries) /\
      exists lo hi,
        is_minimum (temperatures entries) lo /\
        is_maximum (temperatures entries) hi /\
        day_line (key, data) =
        formatWeatherIcon (mostCommon (conditions data)) ++ " " ++
        Date_toLocaleDateString key ++ ": " ++ Number_toString lo ++
        "°C - " ++ Number_toString hi ++ "°C" ++
        rain_note (precipitation data)) /\
  (forall e1 e2 e3 e4,
      timeseries f = [e1; e2; e3; e4] ->
      dayKey e1 = dayKey e2 -> dayKey e3 = dayKey e4 ->
      dayKey e1 <> dayKey e3 ->
      temperatures (timeseries f) = [2; 8; 10; 1] ->
      exists d1 d2,
        days f = [(dayKey e1, d1); (dayKey e3, d2)] /\
        JS.Math_min (temps d1) = JS.Finite 2 /\
        JS.Math_max (temps d1) = JS.Finite 8 /\
        JS.Math_min (temps d2) = JS.Finite 1 /\
        JS.Math_max (temps d2) = JS.Finite 10).
Proof.
  intros Hok Hvalid. apply fetch_success_delivered in Hok.
  pose proof (get_3day_forecast_run w) as Hrun.
  rewrite Hok, Hvalid in Hrun.
  split; [exact Hrun|].
  assert (Hkeys : map fst (days f) =
                  firstn 3 (first_seen (map dayKey (timeseries f)))).
  { unfold days. now rewrite <- group_by_day_keys, firstn_map. }
  split; [exact Hkeys|]. split.
  - intros key data Hin entries.
    destruct (days_summary f key data Hin) as [Hne [Htemps Hsum]].
    fold entries in Hne, Htemps, Hsum.
    split; [exact Htemps|]. split; [exact Hsum|].
    assert (Hne' : temperatures entries <> []).
    { unfold temperatures. destruct entries; [congruence | discriminate]. }
    destruct (Math_min_minimum _ Hne') as [lo [Hlo Hmin]].
    destruct (Math_max_maximum _ Hne') as [hi [Hhi Hmax]].
    exists lo, hi. split; [exact Hmin|]. split; [exact Hmax|].
    unfold day_line. now rewrite Htemps, Hlo, Hhi.
  - intros e1 e2 e3 e4 Hts H12 H34 H13 Htemps.
    assert (E11 : String.eqb (dayKey e1) (dayKey e1) = true)
      by apply String.eqb_refl.
    assert (E33 : String.eqb (dayKey e3) (dayKey e3) = true)
      by apply String.eqb_refl.
    assert (E31 : String.eqb (dayKey e3) (dayKey e1) = false).
    { apply String.eqb_neq. congruence. }
    assert (E13 : String.eqb (dayKey e1) (dayKey e3) = false)
      by now apply String.eqb_neq.
    rewrite Hts in Hkeys. simpl in Hkeys.
    rewrite <- H12, <- H34 in Hkeys.
    rewrite ?E11, ?E33, ?E31, ?E13 in Hkeys. simpl in Hkeys.
    rewrite ?E11, ?E33, ?E31, ?E13 in Hkeys. simpl in Hkeys.
    destruct (days f) as [|[k1 d1] [|[k3 d2] [|? ?]]] eqn:Hdays;
      try discriminate.
    injection Hkeys as -> ->.
    exists d1, d2. split; [reflexivity|].
    assert (H1 : In (dayKey e1, d1) (days f))
      by (rewrite Hdays; now left).
    assert (H3 : In (dayKey e3, d2) (days f))
      by (rewrite Hdays; right; now left).
    apply days_summary in H1. apply days_summary in H3.
    destruct H1 as [_ [T1 _]]. destruct H3 as [_ [T3 _]].
    rewrite Hts in T1, T3, Htemps. unfold entries_on in T1, T3.
    simpl in T1, T3, Htemps.
    rewrite <- H12, <- H34 in T1, T3.
    rewrite ?E11, ?E31 in T1. rewrite ?E33, ?E13 in T3.
    simpl in T1, T3.
    injection Htemps as A1 A2 A3 A4.
    rewrite A1, A2 in T1. rewrite A3, A4 in T3.
    rewrite T1, T3. repeat split; reflexivity.
Qed.

(** ** Sorting by a count *)

Section SortByKey.

Variable A : Type.
Variable key : A -> nat.
Variable cmp : A -> A -> Z.
Hypothesis cmp_key :
  forall a b, cmp a b = (Z.of_nat (key a) - Z.of_nat (key b))%Z.

Lemma cmp_le (a b : A) : (cmp a b <=? 0)%Z = true <-> key_le key a b.
Proof using cmp_key. unfold key_le. rewrite cmp_key, Z.leb_le. lia. Qed.

Lemma sort_insert_perm (x : A) (l : list A) :
  Permutation (sort_insert cmp x l) (x :: l).
Proof.
  induction l as [|y l IH]; simpl; [reflexivity|].
  destruct (cmp x y <=? 0)%Z; [reflexivity|].
  rewrite IH. apply perm_swap.
Qed.

Lemma Array_sort_perm (l : list A) : Permutation (Array_sort cmp l) l.
Proof.
  induction l as [|x l IH]; simpl; [reflexivity|].
  rewrite sort_insert_perm. now constructor.
Qed.

Lemma sort_insert_sorted (x : A) (l : list A) :
  StronglySorted (key_le key) l -> StronglySorted (key_le key) (sort_insert cmp x l).
Proof using cmp_key.
  induction l as [|y l IH]; intros Hs; simpl.
  - repeat constructor.
  - inversion Hs as [|? ? Hl Hy]; subst.
    destruct (cmp x y <=? 0)%Z eqn:Hc.
    + apply cmp_le in Hc. constructor; [exact Hs|].
      constructor; [exact Hc|].
      eapply Forall_impl; [|exact Hy].
      unfold key_le in *. intros z Hz. lia.
    + assert (Hyx : key_le key y x).
      { destruct (Nat.le_gt_cases (key x) (key y)) as [H | H].
        - apply cmp_le in H. congruence.
        - unfold key_le. lia. }
      constructor; [now apply IH|].
      eapply Permutation_Forall;
        [symmetry; apply sort_insert_perm | now constructor].
Qed.

Lemma Array_sort_sorted (l : list A) :
  StronglySorted (key_le key) (Array_sort cmp l).
Proof using cmp_key.
  induction l as [|x l IH]; simpl; [constructor|].
  now apply sort_insert_sorted.
Qed.

(** The last element of a sorted list has the greatest key. *)
Lemma Array_pop_sorted (l : list A) (m : A) :
  StronglySorted (key_le key) l -> Array_pop l = Some m ->
  In m l /\ forall x, In x l -> key_le key x m.
Proof.
  induction l as [|y l IH]; intros Hs Hpop; [discriminate|].
  inversion Hs as [|? ? Hl Hy]; subst.
  destruct l as [|z l].
  - injection Hpop as ->. split; [now left|].
    intros x [<- | []]. unfold key_le. lia.
  - change (Array_pop (z :: l) = Some m) in Hpop.
    destruct (IH Hl Hpop) as [Hin Hmax].
    split; [now right|].
    intros x [<- | Hx]; [|now apply Hmax].
    rewrite Forall_forall in Hy. now apply Hy.
Qed.

Lemma Array_pop_some (l : list A) : l <> [] -> exists m, Array_pop l = Some m.
Proof.
  induction l as [|y [|z l] IH]; intros Hne.
  - congruence.
  - now exists y.
  - destruct IH as [m Hm]; [discriminate|]. now exists m.
Qed.

End SortByKey.

(** ** Dominant condition *)

Lemma occurrences_absent (conds : list string) (code : string) :
  ~ In code conds -> occurrences conds code = 0%nat.
Proof.
  forget_platform.
  unfold occurrences. induction conds as [|c conds IH]; simpl;
    [reflexivity|].
  intros Hnot. destruct (String.eqb c code) eqn:Hc.
  - apply String.eqb_eq in Hc. tauto.
  - apply IH. tauto.
Qed.

(** C8.  For a day with at least one condition code the code the
    aggregator selects is one of the codes of the day, and no code occurs
    more often among them than the selected one. *)
Theorem mostCommon_maximal (conds : list string) :
  conds <> [] ->
  exists code,
    mostCommon conds = Some code /\
    In code conds /\
    forall other, (occurrences conds other <= occurrences conds code)%nat.
Proof.
  intros Hne. unfold mostCommon.
  set (sorted := Array_sort (by_occurrences conds) conds).
  assert (Hperm : Permutation sorted conds)
    by apply Array_sort_perm.
  assert (Hsorted : StronglySorted (key_le (occurrences conds)) sorted)
    by (apply Array_sort_sorted; reflexivity).
  destruct (Array_pop_some string sorted) as [code Hpop].
  { intros Hnil. rewrite Hnil in Hperm.
    apply Permutation_nil in Hperm. contradiction. }
  destruct (Array_pop_sorted string (occurrences conds) sorted code
              Hsorted Hpop) as [Hin Hmax].
  exists code. split; [exact Hpop|].
  split; [now apply (Permutation_in _ Hperm)|].
  intros other.
  destruct (in_dec string_dec other conds) as [Hother | Hother].
  - apply Hmax. apply (Permutation_in _ (Permutation_sym Hperm)), Hother.
  - rewrite (occurrences_absent conds other Hother). lia.
Qed.

(** ** The precipitation note of a day line *)

Lemma string_of_uint_digits (u : Decimal.uint) :
  all_digits (DecimalString.NilEmpty.string_of_uint u) = true.
Proof. induction u; simpl; auto. Qed.

(** The decimal digits of a non-negative integer. *)
Lemma digits_uint (a : Z) :
  (0 <= a)%Z ->
  exists u,
    digits a = DecimalString.NilEmpty.string_of_uint u /\
    u <> Decimal.Nil /\ Z.of_uint u = a.
Proof.
  intros Ha. unfold digits. destruct a as [|p|p]; [| |lia].
  - exists (Decimal.D0 Decimal.Nil). repeat split. discriminate.
  - exists (Pos.to_uint p).
    pose proof (DecimalPos.Unsigned.to_uint_nonnil p) as Hnil.
    split; [|split; [exact Hnil|]].
    + simpl. now destruct (Pos.to_uint p).
    + unfold Z.of_uint. now rewrite DecimalPos.Unsigned.of_to.
Qed.

Lemma split_dot_digits (p t : string) :
  all_digits p = true -> JS.split_dot (p ++ String "."%char t) = (p, t).
Proof.
  induction p as [|c p IH]; simpl; [reflexivity|].
  intros H. apply andb_true_iff in H. destruct H as [Hc Hp].
  destruct (Ascii.eqb c "."%char) eqn:Hdot.
  - apply Ascii.eqb_eq in Hdot. subst c. discriminate.
  - now rewrite (IH Hp).
Qed.

Lemma sign_split_digits (p t : string) :
  all_digits p = true -> p <> EmptyString ->
  JS.sign_split (p ++ t) = (false, p ++ t).
Proof.
  destruct p as [|c p]; [congruence|]. simpl. intros H _.
  apply andb_true_iff in H. destruct H as [Hc _].
  destruct (Ascii.eqb c "-"%char) eqn:Hminus.
  - apply Ascii.eqb_eq in Hminus. subst c. discriminate.
  - destruct (Ascii.eqb c "+"%char) eqn:Hplus; [|reflexivity].
    apply Ascii.eqb_eq in Hplus. subst c. discriminate.
Qed.

Lemma string_of_uint_nonempty (u : Decimal.uint) :
  u <> Decimal.Nil -> DecimalString.NilEmpty.string_of_uint u <> EmptyString.
Proof. destruct u; simpl; congruence. Qed.

Lemma digits_one (b : Z) :
  (0 <= b < 10)%Z -> String.length (digits b) = 1%nat.
Proof.
  intros Hb.
  assert (H : (b = 0 \/ b = 1 \/ b = 2 \/ b = 3 \/ b = 4 \/ b = 5 \/ b = 6 \/
               b = 7 \/ b = 8 \/ b = 9)%Z) by lia.
  repeat (destruct H as [-> | H]; [reflexivity|]). now subst.
Qed.

(** The digits [toFixed(1)] writes convert back to the tenths they
    stand for. *)
Lemma decimal_of_fixed1 (n : Z) :
  (0 <= n)%Z ->
  JS.sign_split (fixed1_digits n) = (false, fixed1_digits n) /\
  exists v,
    JS.decimal_of_string (fixed1_digits n) = Some v /\
    v == inject_Z n * (1 # 10).
Proof.
  intros Hn. unfold fixed1_digits.
  assert (Ha : (0 <= n / 10)%Z) by (apply Z.div_pos; lia).
  assert (Hb : (0 <= n mod 10 < 10)%Z) by (apply Z.mod_pos_bound; lia).
  destruct (digits_uint (n / 10) Ha) as [ua [Ea [Hnil Va]]].
  destruct (digits_uint (n mod 10) (proj1 Hb)) as [ub [Eb [_ Vb]]].
  pose proof (digits_one (n mod 10) Hb) as Hlen.
  pose proof (string_of_uint_digits ua) as Hda.
  pose proof (string_of_uint_nonempty ua Hnil) as Hne.
  rewrite Ea in *. rewrite Eb in *.
  split; [now apply sign_split_digits|].
  unfold JS.decimal_of_string.
  change (DecimalString.NilEmpty.string_of_uint ua ++ "." ++
          DecimalString.NilEmpty.string_of_uint ub)
    with (DecimalString.NilEmpty.string_of_uint ua ++
          String "."%char (DecimalString.NilEmpty.string_of_uint ub)).
  rewrite (split_dot_digits _ _ Hda).
  rewrite !DecimalString.NilEmpty.usu, Hlen, Va, Vb.
  destruct (DecimalString.NilEmpty.string_of_uint ua) as [|c r];
    [congruence|].
  eexists. split; [reflexivity|].
  change (inject_Z (10 ^ Z.of_nat 1)) with 10.
  unfold Qdiv. change (/ 10) with (1 # 10).
  rewrite (Z.div_mod n 10) at 3 by lia.
  rewrite inject_Z_plus, inject_Z_mult. change (inject_Z 10) with 10.
  set (a := inject_Z (n / 10)). set (b := inject_Z (n mod 10)). lra.
Qed.

Lemma tenths_nonnegative (x : Q) : 0 <= x -> (0 <= tenths x)%Z.
Proof.
  intros Hx. unfold tenths.
  assert (H : (Qfloor 0 <= Qfloor (x * 10 + (1 # 2)))%Z)
    by (apply Qfloor_resp_le; lra).
  exact H.
Qed.

Lemma tenths_positive (x : Q) : 0 <= x -> (1 <= tenths x)%Z <-> 1 # 20 <= x.
Proof.
  intros Hx. unfold tenths. split; intros H.
  - pose proof (Qfloor_le (x * 10 + (1 # 2))) as Hlow.
    rewrite Zle_Qle in H. change (inject_Z 1) with 1 in H.
    set (n := inject_Z (Qfloor (x * 10 + (1 # 2)))) in *. lra.
  - assert (Hf : (Qfloor 1 <= Qfloor (x * 10 + (1 # 2)))%Z)
      by (apply Qfloor_resp_le; lra).
    exact Hf.
Qed.

(** ** Rounding to a double *)

Lemma pow2_positive (k : Z) : 0 < 2 ^ k.
Proof. apply Qpower_0_lt. reflexivity. Qed.

Lemma pow2_inject (n : Z) : (0 <= n)%Z -> inject_Z (2 ^ n) == 2 ^ n.
Proof. intros Hn. now rewrite Zpower_Qpower. Qed.

(** The exponent found for a positive number is not too large. *)
Lemma binade_lower (a : Q) : 0 < a -> 2 ^ JS.binade a <= a.
Proof.
  intros Ha. unfold JS.binade.
  set (n := Qnum a). set (d := Z.pos (Qden a)).
  destruct (Qle_bool (2 ^ (Z.log2 n - Z.log2 d)) a) eqn:Htest;
    [now apply Qle_bool_iff|].
  clear Htest.
  assert (Hn : (0 < n)%Z).
  { unfold Qlt in Ha. simpl in Ha. subst n. lia. }
  assert (Hd : (0 < d)%Z) by (subst d; lia).
  destruct (Z.log2_spec n Hn) as [Hnlow _].
  destruct (Z.log2_spec d Hd) as [_ Hdhigh].
  pose proof (Z.log2_nonneg n) as Hln.
  pose proof (Z.log2_nonneg d) as Hld.
  replace (Z.log2 n - Z.log2 d - 1)%Z
    with (Z.log2 n - Z.succ (Z.log2 d))%Z by lia.
  rewrite Qpower_minus by (intros H; discriminate).
  rewrite <- !pow2_inject by lia.
  assert (Hpos : 0 < inject_Z (2 ^ Z.succ (Z.log2 d))).
  { rewrite pow2_inject by lia. apply pow2_positive. }
  apply Qle_shift_div_r; [exact Hpos|].
  assert (Ea : a == inject_Z n / inject_Z d).
  { subst n d. destruct a as [an ad]. simpl. apply Qmake_Qdiv. }
  rewrite Ea. unfold Qdiv. rewrite <- Qmult_assoc.
  assert (Hdq : 0 < inject_Z d).
  { change 0 with (inject_Z 0). now rewrite <- Zlt_Qlt. }
  assert (Hratio : 1 <= / inject_Z d * inject_Z (2 ^ Z.succ (Z.log2 d))).
  { rewrite Qmult_comm. apply Qle_shift_div_l; [exact Hdq|].
    rewrite Qmult_1_l. rewrite <- Zle_Qle. lia. }
  assert (Hnq : inject_Z (2 ^ Z.log2 n) <= inject_Z n)
    by (now rewrite <- Zle_Qle).
  assert (Hnpos : 0 <= inject_Z n).
  { change 0 with (inject_Z 0). rewrite <- Zle_Qle. lia. }
  set (r := / inject_Z d * inject_Z (2 ^ Z.succ (Z.log2 d))) in *.
  set (x := inject_Z (2 ^ Z.log2 n)) in *. set (y := inject_Z n) in *.
  apply Qle_trans with y; [exact Hnq|].
  apply Qle_trans with (y * 1); [rewrite Qmult_1_r; apply Qle_refl|].
  rewrite (Qmult_comm y 1), (Qmult_comm y r).
  apply Qmult_le_compat_r; assumption.
Qed.

Lemma round_half_even_lower (q : Q) (n : Z) :
  inject_Z n <= q -> (n <= JS.round_half_even q)%Z.
Proof.
  intros Hq. unfold JS.round_half_even. cbv zeta.
  assert (Hfloor : (n <= Qfloor q)%Z).
  { rewrite <- (Qfloor_Z n). now apply Qfloor_resp_le. }
  set (f := Qfloor q) in *.
  destruct (Qcompare (q - inject_Z f) (1 # 2));
    [destruct (Z.even f)| |]; lia.
Qed.

(** What a positive number rounds to is not negative, and it is positive
    from the least positive double on. *)
Lemma round_double_pos_sign (a : Q) :
  0 < a ->
  not_negative (JS.round_double_pos a) /\
  (2 ^ (-1074) <= a -> JS.gt_extended (JS.round_double_pos a) 0 = true).
Proof.
  intros Ha. unfold JS.round_double_pos. cbv zeta.
  set (k := Z.max (JS.binade a - 52) (-1074)).
  pose proof (pow2_positive k) as Hpow.
  set (m := JS.round_half_even (a / 2 ^ k)).
  assert (Hm : (0 <= m)%Z).
  { apply round_half_even_lower. apply Qle_shift_div_l; [exact Hpow|].
    change (inject_Z 0) with 0. lra. }
  assert (Hone : 2 ^ (-1074) <= a -> (1 <= m)%Z).
  { intros Hlow. apply round_half_even_lower.
    apply Qle_shift_div_l; [exact Hpow|].
    change (inject_Z 1) with 1. rewrite Qmult_1_l.
    destruct (Z.max_spec (JS.binade a - 52) (-1074)) as [[_ Hk] | [_ Hk]];
      fold k in Hk; rewrite Hk; [exact Hlow|].
    apply Qle_trans with (2 ^ JS.binade a); [|now apply binade_lower].
    apply Qpower_le_compat_l; [lia | lra]. }
  destruct (Qle_bool (2 ^ 1024) (inject_Z m * 2 ^ k));
    cbn [not_negative JS.gt_extended];
    [split; [exact I | reflexivity]|].
  split.
  - rewrite Qred_correct. apply Qmult_le_0_compat; [|lra].
    change 0 with (inject_Z 0). now rewrite <- Zle_Qle.
  - intros Hlow. apply gt_iff. rewrite Qred_correct.
    apply Qmult_lt_0_compat; [|exact Hpow].
    change 0 with (inject_Z 0). rewrite <- Zlt_Qlt.
    specialize (Hone Hlow). lia.
Qed.

Lemma round_double_not_negative (q : Q) :
  0 <= q -> not_negative (JS.round_double q).
Proof.
  intros Hq. unfold JS.round_double.
  destruct (Qcompare q 0) eqn:Hcmp.
  - simpl. lra.
  - rewrite <- Qlt_alt in Hcmp. lra.
  - rewrite <- Qgt_alt in Hcmp. now apply round_double_pos_sign.
Qed.

Lemma round_double_positive (q : Q) :
  2 ^ (-1074) <= q -> JS.gt_extended (JS.round_double q) 0 = true.
Proof.
  intros Hq. pose proof (pow2_positive (-1074)) as Hpow.
  unfold JS.round_double.
  destruct (Qcompare q 0) eqn:Hcmp.
  - rewrite <- Qeq_alt in Hcmp. lra.
  - rewrite <- Qlt_alt in Hcmp. lra.
  - rewrite <- Qgt_alt in Hcmp. now apply round_double_pos_sign.
Qed.

Lemma round_double_not_positive (q : Q) :
  q <= 0 -> JS.gt_extended (JS.round_double q) 0 = false.
Proof.
  intros Hq. unfold JS.round_double.
  destruct (Qcompare q 0) eqn:Hcmp.
  - reflexivity.
  - rewrite <- Qlt_alt in Hcmp.
    assert (Hpos : 0 < - q) by lra.
    destruct (round_double_pos_sign (- q) Hpos) as [Hsign _].
    destruct (JS.round_double_pos (- q)) as [v| |]; simpl in *;
      [|reflexivity|contradiction].
    destruct (JS.gt (- v) 0) eqn:Hgt; [|reflexivity].
    apply gt_iff in Hgt. lra.
  - rewrite <- Qgt_alt in Hcmp. lra.
Qed.


(** ** The precipitation note *)

Lemma decimal_of_string_nonnegative (body : string) (v : Q) :
  JS.decimal_of_string body = Some v -> 0 <= v.
Proof.
  unfold JS.decimal_of_string.
  destruct (JS.split_dot body) as [whole fraction].
  assert (Hvalue :
            forall i f,
              0 <= inject_Z (Z.of_uint i) +
                   inject_Z (Z.of_uint f) /
                   inject_Z (10 ^ Z.of_nat (String.length fraction))).
  { intros i f.
    assert (Hi : 0 <= inject_Z (Z.of_uint i)).
    { change 0 with (inject_Z 0). rewrite <- Zle_Qle.
      unfold Z.of_uint. apply N2Z.is_nonneg. }
    assert (Hf : 0 <= inject_Z (Z.of_uint f)).
    { change 0 with (inject_Z 0). rewrite <- Zle_Qle.
      unfold Z.of_uint. apply N2Z.is_nonneg. }
    assert (Hten : 0 < inject_Z (10 ^ Z.of_nat (String.length fraction))).
    { change 0 with (inject_Z 0). rewrite <- Zlt_Qlt.
      apply Z.pow_pos_nonneg; lia. }
    assert (Hquot : 0 <= inject_Z (Z.of_uint f) /
                         inject_Z (10 ^ Z.of_nat (String.length fraction))).
    { apply Qle_shift_div_l; [exact Hten | lra]. }
    set (x := inject_Z (Z.of_uint i)) in *.
    set (y := inject_Z (Z.of_uint f) /
              inject_Z (10 ^ Z.of_nat (String.length fraction))) in *.
    lra. }
  destruct (DecimalString.NilEmpty.uint_of_string whole) as [i|];
    destruct (DecimalString.NilEmpty.uint_of_string fraction) as [f|];
    destruct whole; destruct fraction; intros H; try discriminate;
    injection H as <-; apply Hvalue.
Qed.

Lemma literal_of_string_nonnegative (body : string) (v : Q) :
  JS.literal_of_string body = Some v -> 0 <= v.
Proof.
  unfold JS.literal_of_string.
  destruct (JS.decimal_of_string body) as [u|] eqn:Hbody.
  - intros H. injection H as <-.
    now apply decimal_of_string_nonnegative with body.
  - destruct (JS.split_exponent body) as [mantissa [exponent|]];
      [|discriminate].
    destruct (JS.decimal_of_string mantissa) as [u|] eqn:Hm; [|discriminate].
    destruct (JS.exponent_of_string exponent) as [e|]; [|discriminate].
    intros H. injection H as <-.
    apply Qmult_le_0_compat.
    + now apply decimal_of_string_nonnegative with mantissa.
    + apply Qpower_0_le. lra.
Qed.

(** A string that starts with a minus sign does not convert to a
    positive number. *)
Lemma gt_string_minus (s : string) : JS.gt_string ("-" ++ s) 0 = false.
Proof.
  unfold JS.gt_string, JS.Number_of_string.
  change (JS.sign_split ("-" ++ s)) with (true, s). cbv beta iota.
  destruct (String.eqb s "Infinity"); [reflexivity|].
  destruct (JS.literal_of_string s) as [v|] eqn:Hv; [|reflexivity].
  apply round_double_not_positive.
  apply literal_of_string_nonnegative in Hv. lra.
Qed.

(** The digits [toFixed(1)] writes convert to a positive number exactly
    when they stand for one tenth at least. *)
Lemma gt_string_fixed1 (n : Z) :
  (0 <= n)%Z -> JS.gt_string (fixed1_digits n) 0 = true <-> (1 <= n)%Z.
Proof.
  intros Hn. destruct (decimal_of_fixed1 n Hn) as [Hsign [v [Hv Ev]]].
  unfold JS.gt_string, JS.Number_of_string. rewrite Hsign.
  assert (Hinf : String.eqb (fixed1_digits n) "Infinity" = false).
  { apply String.eqb_neq. intros E. rewrite E in Hv. discriminate. }
  rewrite Hinf. unfold JS.literal_of_string. rewrite Hv.
  assert (Hcases : (n = 0 \/ 1 <= n)%Z) by lia.
  destruct Hcases as [-> | Hpos].
  - rewrite round_double_not_positive.
    + split; [discriminate | lia].
    + rewrite Ev. change (inject_Z 0) with 0. lra.
  - split; [intros _; exact Hpos | intros _].
    apply round_double_positive.
    apply Qle_trans with (1 # 10);
      [apply Qle_bool_iff; vm_compute; reflexivity|].
    rewrite Ev. rewrite Zle_Qle in Hpos. change (inject_Z 1) with 1 in Hpos.
    set (x := inject_Z n) in *. lra.
Qed.

(** The note of a finite total below 10^21, where [toFixed] writes
    digits. *)
Lemma rain_note_finite (t : Q) :
  t < 10 ^ 21 ->
  (rain_note (JS.Finite t) = EmptyString <-> t < 1 # 20) /\
  (1 # 20 <= t ->
   rain_note (JS.Finite t) = ", " ++ fixed1_digits (tenths t) ++ "mm rain").
Proof.
  intros Hbound. unfold rain_note, toFixed1.
  destruct (JS.lt t 0) eqn:Hneg.
  - apply lt_iff in Hneg. rewrite gt_string_minus.
    split; [split; [intros _; lra | reflexivity] | intros H; lra].
  - apply lt_false_iff in Hneg. unfold toFixed1_magnitude.
    assert (Hsmall : Qle_bool (10 ^ 21) t = false).
    { destruct (Qle_bool (10 ^ 21) t) eqn:Hle; [|reflexivity].
      apply Qle_bool_iff in Hle.
      set (limit := 10 ^ 21) in *. lra. }
    rewrite Hsmall.
    assert (Hx : 0 <= t) by lra.
    pose proof (gt_string_fixed1 _ (tenths_nonnegative t Hx)) as Hgt.
    rewrite (tenths_positive t Hx) in Hgt.
    destruct (JS.gt_string (fixed1_digits (tenths t)) 0).
    + assert (Hwet : 1 # 20 <= t) by now apply Hgt.
      split; [split; [discriminate | intros H; lra] | reflexivity].
    + split; [split; [intros _|reflexivity]|].
      * apply Qnot_le_lt. intros H. apply Hgt in H. discriminate.
      * intros H. apply Hgt in H. discriminate.
Qed.

(** C7, as the code has it.  The precipitation of an emitted day is the
    running sum of the amounts of its entries that are present and not
    zero, each addition rounded to a double.  The line of the day ends
    with the precipitation note exactly when that total, rounded to one
    decimal as it is displayed, is greater than zero, that is when the
    total is at least 0.05; a smaller total leaves the line without a
    note.  This is so for a total below 10^21, up to where [toFixed]
    writes a number with one decimal; an infinite total is noted as
    such. *)
Theorem rain_note_rounded (f : forecast) (key : string) (data : day_data) :
  In (key, data) (days f) ->
  let total := running_sum (rain_amounts (entries_on key (timeseries f))) in
  precipitation data = total /\
  exists note,
    day_line (key, data) =
    formatWeatherIcon (mostCommon (conditions data)) ++ " " ++
    Date_toLocaleDateString key ++ ": " ++
    show_extended (JS.Math_min (temps data)) ++ "°C - " ++
    show_extended (JS.Math_max (temps data)) ++ "°C" ++ note /\
    (forall t,
        total = JS.Finite t -> t < 10 ^ 21 ->
        (note = EmptyString <-> t < 1 # 20) /\
        (1 # 20 <= t ->
         note = ", " ++ fixed1_digits (tenths t) ++ "mm rain")) /\
    (total = JS.PlusInfinity -> note = ", Infinitymm rain").
Proof.
  intros Hin total.
  destruct (days_summary f key data Hin) as [_ [_ Hsum]].
  fold total in Hsum.
  split; [exact Hsum|].
  exists (rain_note (precipitation data)). split; [reflexivity|].
  rewrite Hsum. split.
  - intros t -> Hbound. now apply rain_note_finite.
  - intros ->. reflexivity.
Qed.

(** ** Entries without a next-hour block *)

Lemma fold_absorb_bare (es : list entry) (v : day_data) :
  (forall e, In e es -> next_1_hours e = None) ->
  conditions (fold_left (fun v e => absorb e v) es v) = conditions v /\
  precipitation (fold_left (fun v e => absorb e v) es v) = precipitation v.
Proof.
  revert v. induction es as [|e es IH]; intros v Hbare; simpl; [tauto|].
  destruct (IH (absorb e v)) as [Hc Hp].
  { intros e' He'. apply Hbare. now right. }
  rewrite Hc, Hp. unfold absorb.
  rewrite (Hbare e (or_introl eq_refl)). simpl. tauto.
Qed.

Lemma days_bare (f : forecast) (row : string * day_data) :
  (forall e, In e (timeseries f) -> next_1_hours e = None) ->
  In row (days f) ->
  conditions (snd row) = [] /\ precipitation (snd row) = JS.Finite 0.
Proof.
  forget_platform.
  intros Hbare Hin. destruct row as [key data].
  apply days_rows in Hin. destruct Hin as [_ ->]. simpl.
  apply (fold_absorb_bare _ empty_day).
  intros e He. apply Hbare. unfold entries_on in He.
  apply filter_In in He. tauto.
Qed.

(** C10.  When no entry of a non-empty timeseries has a next-hour block
    and every timestamp is a valid date, every handler returns a text:
    the current-weather and the hourly handler print the default glyph
    and no precipitation note, the 3-day handler prints each day with the
    default glyph, its list of conditions being empty, and the activity
    handler chooses its band with the precipitation test false. *)
Theorem handlers_without_next_hour (w : world) (f : forecast)
        (current : entry) (rest : list entry) :
  fetch_success (yr net yr_request) (WithTimeseries f) ->
  timeseries f = current :: rest ->
  (forall e, In e (timeseries f) -> next_1_hours e = None) ->
  valid_times (timeseries f) = true ->
  fst (get_current_weather w) =
  Returned (text_result
              (JS.join nl
                 [ glyph_default ++ " Current weather in Halden (via YR.no):";
                   "Temperature: " ++
                   Number_toString (air_temperature (instant current)) ++ "°C";
                   "Wind: " ++
                   Number_toString (wind_speed (instant current)) ++ " m/s";
                   "Humidity: " ++
                   Number_toString (relative_humidity (instant current)) ++ "%";
                   "Pressure: " ++
                   Number_toString
                     (air_pressure_at_sea_level (instant current)) ++
                   " hPa" ])) /\
  fst (get_hourly_forecast w) =
  Returned (text_result
              (JS.join nl
                 (hourly_header :: EmptyString ::
                  map (fun e =>
                         show_int (Date_getHours (time e)) ++ ":00 " ++
                         glyph_default ++ " " ++
                         Number_toString (air_temperature (instant e)) ++
                         "°C, " ++
                         Number_toString (wind_speed (instant e)) ++ " m/s")
                      (firstn 12 (timeseries f))))) /\
  fst (get_3day_forecast w) =
  Returned (text_result
              (JS.join nl
                 (daily_header :: EmptyString ::
                  map (fun row =>
                         glyph_default ++ " " ++
                         Date_toLocaleDateString (fst row) ++ ": " ++
                         show_extended (JS.Math_min (temps (snd row))) ++
                         "°C - " ++
                         show_extended (JS.Math_max (temps (snd row))) ++ "°C")
                      (days f)))) /\
  (forall row, In row (days f) -> conditions (snd row) = []) /\
  exists activityResults,
    fst (suggest_activities w) =
    Returned (text_result
                (JS.join nl
                   ([activity_header (air_temperature (instant current))
                                     (wind_speed (instant current));
                     EmptyString] ++
                    fst (advise false (air_temperature (instant current))
                                (wind_speed (instant current))) ++
                    [activityResults])%list)).
Proof.
  intros Hok Hts Hbare Hvalid. apply fetch_success_delivered in Hok.
  pose proof (get_current_weather_run w) as Hcur.
  pose proof (get_hourly_forecast_run w) as Hhour.
  pose proof (get_3day_forecast_run w) as Hday.
  rewrite Hok in Hcur, Hhour, Hday. rewrite Hvalid in Hday.
  rewrite Hts in Hcur.
  assert (Hfirst : next_1_hours current = None).
  { apply Hbare. rewrite Hts. now left. }
  split; [|split; [|split; [|split]]].
  - rewrite Hcur. unfold current_text. now rewrite Hfirst.
  - rewrite Hhour. unfold hourly_lines. do 5 f_equal.
    apply map_ext_in. intros e He.
    assert (Hin : In e (timeseries f)).
    { rewrite <- (firstn_skipn 12 (timeseries f)). apply in_or_app.
      now left. }
    unfold hourly_line. now rewrite (Hbare e Hin).
  - rewrite Hday. do 5 f_equal.
    apply map_ext_in. intros [key data] Hrow.
    destruct (days_bare f (key, data) Hbare Hrow) as [Hc Hp].
    simpl in Hc, Hp. unfold day_line. now rewrite Hc, Hp.
  - intros row Hrow. now apply (days_bare f row Hbare).
  - destruct (suggest_activities_returned w f current rest Hok Hts)
      as [w1 [text [w2 [_ [_ [_ Hall]]]]]].
    rewrite Hfirst in Hall. simpl JS.gt_undef in Hall.
    exists text. now rewrite Hall.
Qed.

(** * Further properties of the code *)

(** ** The clients and the world *)

(** A run of the forecast client: what it returns and what it leaves. *)
Lemma fetchHaldenForecast_world (w : world) :
  exists line,
    fetchHaldenForecast w =
    (Returned (delivered (yr net yr_request)),
     {| sent := (sent w ++ [yr_request])%list;
        console := (console w ++ [line])%list |}).
Proof.
  unfold fetchHaldenForecast, try_catch, bind, fetch, json, delivered,
    console_error, ret, throw.
  destruct (yr net yr_request) as [m | resp]; simpl.
  - eexists; reflexivity.
  - destruct (ok resp); simpl.
    + destruct (body resp) as [m | [| f]]; simpl; eexists; reflexivity.
    + eexists; reflexivity.
Qed.

(** A run of the search client with a credential. *)
Lemma braveSearch_world (query : string) (count : Z) (w : world) :
  key_configured = true ->
  exists lines,
    braveSearch query count w =
    (Returned (search_delivered (brave net (brave_request query count))),
     {| sent := (sent w ++ [brave_request query count])%list;
        console := (console w ++ lines)%list |}) /\
    (search_delivered (brave net (brave_request query count)) = None ->
     List.length lines = 1%nat) /\
    (search_delivered (brave net (brave_request query count)) <> None ->
     lines = []).
Proof.
  intros Hkey.
  unfold braveSearch, try_catch, bind, fetch, json, search_delivered,
    console_error, ret, throw.
  rewrite Hkey. simpl.
  destruct (brave net (brave_request query count)) as [m | resp]; simpl.
  - eexists. split; [reflexivity|]. split; [reflexivity | congruence].
  - destruct (ok resp); simpl.
    + destruct (body resp) as [m | parsed]; simpl.
      * eexists. split; [reflexivity|]. split; [reflexivity | congruence].
      * exists []. rewrite app_nil_r.
        split; [reflexivity|]. split; [discriminate | reflexivity].
    + eexists. split; [reflexivity|]. split; [reflexivity | congruence].
Qed.

(** X1.  Whatever the forecast service answers, one call of
    [fetchHaldenForecast] issues exactly one request, the fixed one, and
    writes exactly one diagnostic line: there is no second attempt. *)
Theorem forecast_fetch_single_attempt (w : world) :
  sent (snd (fetchHaldenForecast w)) = (sent w ++ [yr_request])%list /\
  exists line,
    console (snd (fetchHaldenForecast w)) = (console w ++ [line])%list.
Proof.
  destruct (fetchHaldenForecast_world w) as [line Hrun]. rewrite Hrun.
  split; [reflexivity | now exists line].
Qed.

(** X2.  A 2xx answer whose JSON body has no [properties.timeseries] is
    turned into the sentinel: the success line reads the length of the
    timeseries inside the guarded block.  Each handler then returns its
    fixed failure text. *)
Theorem body_without_timeseries_is_sentinel (w : world) :
  fetch_success (yr net yr_request) NoTimeseries ->
  fst (fetchHaldenForecast w) = Returned None /\
  fst (get_current_weather w) = Returned (text_result msg_current_failed) /\
  fst (get_hourly_forecast w) = Returned (text_result msg_forecast_failed) /\
  fst (get_3day_forecast w) = Returned (text_result msg_forecast_failed) /\
  fst (suggest_activities w) = Returned (text_result msg_activities_failed).
Proof.
  intros [resp [Hreply [Hok Hbody]]].
  assert (Hnone : delivered (yr net yr_request) = None).
  { rewrite Hreply. simpl. now rewrite Hok, Hbody. }
  destruct (fetchHaldenForecast_run w) as [w' [Hrun _]].
  pose proof (get_current_weather_run w) as Hcur.
  pose proof (get_hourly_forecast_run w) as Hhour.
  pose proof (get_3day_forecast_run w) as Hday.
  destruct (suggest_activities_run w) as [w1 [_ [_ Hact]]].
  rewrite Hnone in *. rewrite Hrun. auto.
Qed.

(** X3.  With a credential the search client never throws; when the
    request fails (network-level error, status outside 2xx, body that is
    not JSON) it returns the sentinel, having issued exactly one request
    and written exactly one diagnostic line. *)
Theorem braveSearch_failure_is_sentinel (query : string) (count : Z)
        (w : world) :
  credential BRAVE_API_KEY ->
  (exists r w', braveSearch query count w = (Returned r, w')) /\
  (fetch_failure (brave net (brave_request query count)) ->
   fst (braveSearch query count w) = Returned None /\
   sent (snd (braveSearch query count w)) =
   (sent w ++ [brave_request query count])%list /\
   exists line,
     console (snd (braveSearch query count w)) = (console w ++ [line])%list).
Proof.
  intros Hkey. apply key_configured_credential in Hkey.
  destruct (braveSearch_world query count w Hkey)
    as [lines [Hrun [Hfail _]]].
  split; [eauto|].
  intros Hbad.
  assert (Hnone : search_delivered (brave net (brave_request query count)) =
                  None).
  { unfold search_delivered.
    destruct (brave net (brave_request query count)) as [m | resp];
      [reflexivity|].
    destruct Hbad as [H | [m H]].
    - now rewrite H.
    - rewrite H. now destruct (ok resp). }
  rewrite Hrun, Hnone. simpl. split; [reflexivity|]. split; [reflexivity|].
  specialize (Hfail Hnone).
  destruct lines as [|line [|]]; try discriminate. now exists line.
Qed.

(** ** The handlers and the world *)

Lemma get_current_weather_world (w : world) :
  snd (get_current_weather w) = snd (fetchHaldenForecast w).
Proof.
  destruct (fetchHaldenForecast_world w) as [line Hrun].
  unfold get_current_weather. rewrite (bind_returned _ _ _ _ _ Hrun), Hrun.
  destruct (delivered (yr net yr_request)) as [data|]; [|reflexivity].
  now destruct (timeseries data).
Qed.

Lemma get_hourly_forecast_world (w : world) :
  snd (get_hourly_forecast w) = snd (fetchHaldenForecast w).
Proof.
  destruct (fetchHaldenForecast_world w) as [line Hrun].
  unfold get_hourly_forecast. rewrite (bind_returned _ _ _ _ _ Hrun), Hrun.
  now destruct (delivered (yr net yr_request)).
Qed.

Lemma get_3day_forecast_world (w : world) :
  snd (get_3day_forecast w) = snd (fetchHaldenForecast w).
Proof.
  destruct (fetchHaldenForecast_world w) as [line Hrun].
  unfold get_3day_forecast. rewrite (bind_returned _ _ _ _ _ Hrun), Hrun.
  destruct (delivered (yr net yr_request)) as [data|]; [|reflexivity].
  unfold bind. rewrite forEach_group_entry.
  now destruct (valid_times (timeseries data)).
Qed.

Lemma suggest_activities_world (w : world) :
  (forall f, delivered (yr net yr_request) = Some f -> timeseries f = []) ->
  snd (suggest_activities w) = snd (fetchHaldenForecast w).
Proof.
  intros Hnone.
  destruct (fetchHaldenForecast_world w) as [line Hrun].
  unfold suggest_activities. rewrite (bind_returned _ _ _ _ _ Hrun), Hrun.
  destruct (delivered (yr net yr_request)) as [data|]; [|reflexivity].
  now rewrite (Hnone data eq_refl).
Qed.

(** X4.  On the answers of the forecast service that the data model
    covers (a failure, a body without a timeseries, or a timeseries of
    entries with a timestamp and instant details): the hourly handler
    returns one text block in every case.  The 3-day handler throws the
    RangeError of [toISOString] when a forecast is delivered in which a
    timestamp is not a valid date, and returns one text block in every
    other case.  The current-weather and the activity handler throw when
    the delivered timeseries is empty, and return one text block in every
    other case. *)
Theorem handlers_return_or_throw (w : world) :
  (exists text, fst (get_hourly_forecast w) = Returned (text_result text)) /\
  ((exists f, fetch_success (yr net yr_request) (WithTimeseries f) /\
              valid_times (timeseries f) = false) ->
   fst (get_3day_forecast w) = Threw invalid_time) /\
  (~ (exists f, fetch_success (yr net yr_request) (WithTimeseries f) /\
                valid_times (timeseries f) = false) ->
   exists text, fst (get_3day_forecast w) = Returned (text_result text)) /\
  (fetch_success (yr net yr_request)
                 (WithTimeseries {| timeseries := [] |}) ->
   fst (get_current_weather w) = Threw (undefined_read "data") /\
   fst (suggest_activities w) = Threw (undefined_read "data")) /\
  (~ fetch_success (yr net yr_request)
                   (WithTimeseries {| timeseries := [] |}) ->
   (exists text, fst (get_current_weather w) = Returned (text_result text)) /\
   (exists text, fst (suggest_activities w) = Returned (text_result text))).
Proof.
  pose proof (get_current_weather_run w) as Hcur.
  pose proof (get_hourly_forecast_run w) as Hhour.
  pose proof (get_3day_forecast_run w) as Hday.
  assert (Hthree :
            ((exists f, delivered (yr net yr_request) = Some f /\
                        valid_times (timeseries f) = false) ->
             fst (get_3day_forecast w) = Threw invalid_time) /\
            (~ (exists f, delivered (yr net yr_request) = Some f /\
                          valid_times (timeseries f) = false) ->
             exists text,
               fst (get_3day_forecast w) = Returned (text_result text))).
  { destruct (delivered (yr net yr_request)) as [data|].
    - destruct (valid_times (timeseries data)) eqn:Hvalid.
      + split; [|eauto]. intros [f [Hf Hbad]]. congruence.
      + split; [now intros _|]. intros Hno. exfalso. apply Hno.
        now exists data.
    - split; [|eauto]. intros [f [Hf _]]. discriminate. }
  assert (Hsame :
            (exists f, fetch_success (yr net yr_request) (WithTimeseries f) /\
                       valid_times (timeseries f) = false) <->
            (exists f, delivered (yr net yr_request) = Some f /\
                       valid_times (timeseries f) = false)).
  { split; intros [f [Hf Hbad]]; exists f; split; try exact Hbad;
      now apply fetch_success_delivered. }
  rewrite Hsame. clear Hsame.
  destruct Hthree as [Hthrow Hreturn].
  split; [|split; [exact Hthrow|split; [exact Hreturn|]]].
  { destruct (delivered (yr net yr_request)); eauto. }
  clear Hthrow Hreturn Hday.
  rewrite fetch_success_delivered.
  destruct (delivered (yr net yr_request)) as [[ts]|] eqn:Hdel.
  - destruct ts as [|current rest]; simpl in Hcur.
    + split; [|congruence]. intros _.
      apply index_zero_of_empty_timeseries with (f := {| timeseries := [] |});
        [now apply fetch_success_delivered | reflexivity].
    + split; [discriminate|]. intros _. split; [eauto|].
      destruct (suggest_activities_returned
                  w {| timeseries := current :: rest |} current rest
                  Hdel eq_refl) as [w1 [text [w2 [_ [_ [_ Hall]]]]]].
      rewrite Hall. cbn [fst]. eauto.
  - split; [discriminate|].
    intros _. split; [eauto|].
    destruct (suggest_activities_run w) as [w1 [_ [_ Hact]]].
    rewrite Hdel in Hact. eauto.
Qed.

(** X5.  The three forecast tools issue exactly one request, to the
    forecast service, and none to the search service; the activity tool
    issues no search request either when no forecast with a first entry
    was delivered. *)
Theorem handlers_requests (w : world) :
  sent (snd (get_current_weather w)) = (sent w ++ [yr_request])%list /\
  sent (snd (get_hourly_forecast w)) = (sent w ++ [yr_request])%list /\
  sent (snd (get_3day_forecast w)) = (sent w ++ [yr_request])%list /\
  ((forall f, fetch_success (yr net yr_request) (WithTimeseries f) ->
              timeseries f = []) ->
   sent (snd (suggest_activities w)) = (sent w ++ [yr_request])%list).
Proof.
  destruct (fetchHaldenForecast_world w) as [line Hrun].
  rewrite get_current_weather_world, get_hourly_forecast_world,
    get_3day_forecast_world, Hrun.
  repeat (split; [reflexivity|]).
  intros Hnone. rewrite suggest_activities_world, Hrun; [reflexivity|].
  intros f Hf. apply Hnone. now apply fetch_success_delivered.
Qed.

(** ** Search results in the output *)

Lemma mapi_from_length {A B : Type} (i : nat) (f : A -> nat -> B)
      (l : list A) :
  List.length (mapi_from i f l) = List.length l.
Proof.
  revert i. induction l as [|x l IH]; intros i; simpl;
    [reflexivity | now rewrite IH].
Qed.

Lemma mapi_from_nth {A B : Type} (i n : nat) (f : A -> nat -> B)
      (l : list A) (x : A) :
  nth_error l n = Some x ->
  nth_error (mapi_from i f l) n = Some (f x (i + n)%nat).
Proof.
  revert i n. induction l as [|y l IH]; intros i [|n] H;
    try discriminate; simpl in *.
  - injection H as ->. now rewrite Nat.add_0_r.
  - rewrite (IH (S i) n H). now rewrite Nat.add_succ_r.
Qed.

Lemma has_results_found (r : reply search_body) :
  has_results (search_delivered r) =
  match found_results r with
  | [] => false
  | _ :: _ => true
  end.
Proof.
  unfold has_results, found_results.
  now destruct (web_results (search_delivered r)) as [[|x l]|].
Qed.

(** The search step of the activity handler, with a credential. *)
Lemma activity_results_found (searchQuery : string) (w : world) :
  key_configured = true ->
  fst (activity_results searchQuery w) =
  Returned
    match found_results (brave net (brave_request searchQuery 2)) with
    | [] => EmptyString
    | _ :: _ =>
      nl ++ nl ++ "🎯 Suggested places:" ++ nl ++
      JS.join (nl ++ nl)
        (mapi_from 0 place_line
           (found_results (brave net (brave_request searchQuery 2))))
    end.
Proof.
  intros Hkey. unfold activity_results. rewrite Hkey.
  destruct (braveSearch_world searchQuery 2 w Hkey) as [lines [Hrun _]].
  rewrite (bind_returned _ _ _ _ _ Hrun), has_results_found.
  unfold found_results.
  now destruct (web_results
                  (search_delivered
                     (brave net (brave_request searchQuery 2))))
    as [[|x l]|].
Qed.

(** X6.  In the activity tool, with a credential: when the search fails
    or finds nothing the venue section is the empty string, the same in
    both cases; otherwise the section lists every result the service
    sent, in its order, numbered from 1, with title and URL. *)
Theorem activity_search_section (searchQuery : string) (w : world) :
  credential BRAVE_API_KEY ->
  (found_results (brave net (brave_request searchQuery 2)) = [] ->
   fst (activity_results searchQuery w) = Returned EmptyString) /\
  (found_results (brave net (brave_request searchQuery 2)) <> [] ->
   exists lines,
     fst (activity_results searchQuery w) =
     Returned (nl ++ nl ++ "🎯 Suggested places:" ++ nl ++
               JS.join (nl ++ nl) lines) /\
     List.length lines =
     List.length (found_results (brave net (brave_request searchQuery 2))) /\
     forall n result,
       nth_error (found_results (brave net (brave_request searchQuery 2))) n =
       Some result ->
       nth_error lines n =
       Some (show_int (Z.of_nat (n + 1)) ++ ". " ++ title result ++ nl ++
             "   " ++ url result)).
Proof.
  intros Hkey. apply key_configured_credential in Hkey.
  pose proof (activity_results_found searchQuery w Hkey) as Hrun.
  destruct (found_results (brave net (brave_request searchQuery 2)))
    as [|x l] eqn:Hfound.
  - split; [intros _; exact Hrun | congruence].
  - split; [discriminate|]. intros _.
    exists (mapi_from 0 place_line (x :: l)).
    split; [exact Hrun|]. split; [apply mapi_from_length|].
    intros n result Hn.
    now rewrite (mapi_from_nth 0 n _ _ result Hn).
Qed.

(** A run of the search tool with a credential. *)
Lemma search_local_info_run (query : string) (w : world) :
  key_configured = true ->
  exists logged,
    search_local_info query w =
    (Returned
       (text_result
          match found_results
                  (brave net (brave_request ("Halden Norway " ++ query) 3))
          with
          | [] =>
            "🔍 No search results found for " ++ dquote ++ query ++ dquote ++
            " in Halden. Try different keywords."
          | _ :: _ =>
            JS.join nl
              [ "🔍 Local info for " ++ dquote ++ query ++ dquote ++
                " in Halden:"; EmptyString;
                JS.join nl
                  (mapi_from 0 info_line
                     (found_results
                        (brave net
                           (brave_request ("Halden Norway " ++ query) 3)))) ]
          end),
     {| sent := (sent w ++ [brave_request ("Halden Norway " ++ query) 3])%list;
        console := (console w ++ logged)%list |}).
Proof.
  intros Hkey. unfold search_local_info. rewrite Hkey. cbn [negb]. cbv zeta.
  destruct (braveSearch_world ("Halden Norway " ++ query) 3 w Hkey)
    as [logged [Hrun _]].
  rewrite (bind_returned _ _ _ _ _ Hrun), has_results_found.
  exists logged. unfold found_results.
  now destruct (web_results
                  (search_delivered
                     (brave net
                        (brave_request ("Halden Norway " ++ query) 3))))
    as [[|x l]|].
Qed.

(** X7.  The search tool of the three-tool variant: without a credential
    it returns its configuration text and touches neither the network nor
    the diagnostic channel; with one it issues exactly one search request
    for the query prefixed with the place, answers a failed search and an
    empty result list with the same text, and otherwise lists every result
    in order, numbered from 1, with title, URL and description. *)
Theorem search_local_info_cases (query : string) (w : world) :
  (~ credential BRAVE_API_KEY ->
   search_local_info query w = (Returned (text_result msg_search_disabled), w)) /\
  (credential BRAVE_API_KEY ->
   sent (snd (search_local_info query w)) =
   (sent w ++ [brave_request ("Halden Norway " ++ query) 3])%list /\
   (found_results (brave net (brave_request ("Halden Norway " ++ query) 3)) =
    [] ->
    fst (search_local_info query w) =
    Returned (text_result
                ("🔍 No search results found for " ++ dquote ++ query ++
                 dquote ++ " in Halden. Try different keywords."))) /\
   (found_results (brave net (brave_request ("Halden Norway " ++ query) 3)) <>
    [] ->
    exists lines,
      fst (search_local_info query w) =
      Returned (text_result
                  (JS.join nl
                     [ "🔍 Local info for " ++ dquote ++ query ++ dquote ++
                       " in Halden:"; EmptyString; JS.join nl lines ])) /\
      List.length lines =
      List.length
        (found_results
           (brave net (brave_request ("Halden Norway " ++ query) 3))) /\
      forall n result,
        nth_error
          (found_results
             (brave net (brave_request ("Halden Norway " ++ query) 3))) n =
        Some result ->
        nth_error lines n =
        Some (show_int (Z.of_nat (n + 1)) ++ ". **" ++ title result ++ "**" ++
              nl ++ "   " ++ url result ++ nl ++ "   " ++
              description result ++ nl))).
Proof.
  rewrite <- key_configured_credential. split.
  - intros Hkey. apply not_true_is_false in Hkey.
    unfold search_local_info. now rewrite Hkey.
  - intros Hkey.
    destruct (search_local_info_run query w Hkey) as [logged Hrun].
    rewrite Hrun. cbn [fst snd sent].
    split; [reflexivity|].
    destruct (found_results
                (brave net (brave_request ("Halden Norway " ++ query) 3)))
      as [|x l] eqn:Hfound.
    + split; [reflexivity | congruence].
    + split; [discriminate|]. intros _.
      exists (mapi_from 0 info_line (x :: l)).
      split; [reflexivity|]. split; [apply mapi_from_length|].
      intros n result Hn.
      now rewrite (mapi_from_nth 0 n _ _ result Hn).
Qed.

(** ** The grouping loop, day by day *)

(** An association list without repeated keys is its list of keys with
    the value found under each. *)
Lemma daily_closed_form (value : string -> day_data) (d : daily) :
  NoDup (map fst d) ->
  (forall k, In k (map fst d) -> daily_get k d = Some (value k)) ->
  d = map (fun k => (k, value k)) (map fst d).
Proof.
  forget_platform.
  induction d as [|[k v] d IH]; intros Hnodup Hget; [reflexivity|].
  simpl in *. inversion Hnodup as [|? ? Hnotin Hrest]; subst.
  pose proof (Hget k (or_introl eq_refl)) as Hk.
  rewrite String.eqb_refl in Hk. injection Hk as ->.
  f_equal. apply IH; [exact Hrest|].
  intros k' Hk'. specialize (Hget k' (or_intror Hk')).
  destruct (String.eqb k k') eqn:E; [|exact Hget].
  apply String.eqb_eq in E. subst k'. contradiction.
Qed.

Lemma group_by_day_closed_form (es : list entry) :
  group_by_day es =
  map (fun key => (key, absorb_all (entries_on key es)))
      (first_seen (map dayKey es)).
Proof.
  rewrite <- group_by_day_keys.
  apply daily_closed_form.
  - rewrite group_by_day_keys. apply first_seen_NoDup.
  - intros k Hk. rewrite group_by_day_get.
    destruct (entries_on k es) eqn:Hon; [|reflexivity].
    exfalso. revert Hk. apply daily_get_none.
    now rewrite group_by_day_get, Hon.
Qed.

Lemma absorb_conditions (e : entry) (v : day_data) :
  conditions (absorb e v) = (conditions v ++ condition_codes [e])%list.
Proof.
  unfold absorb, condition_codes. simpl.
  destruct (precipitation_of (next_1_hours e)) as [amount|];
    [destruct (JS.truthy_number amount)|];
    (destruct (symbol_code_of (next_1_hours e)) as [code|];
     [destruct (JS.truthy_string code)|]);
    simpl; now rewrite ?app_nil_r.
Qed.

Lemma fold_absorb_conditions (es : list entry) (v : day_data) :
  conditions (fold_left (fun v e => absorb e v) es v) =
  (conditions v ++ condition_codes es)%list.
Proof.
  revert v. induction es as [|e es IH]; intros v.
  - simpl. now rewrite app_nil_r.
  - simpl fold_left. rewrite IH, absorb_conditions, <- app_assoc.
    f_equal. unfold condition_codes. simpl. now rewrite app_nil_r.
Qed.

(** X8.  The grouping loop updates one shared object entry by entry; its
    rows are those of each day taken by itself.  The emitted rows are the
    first three distinct days in the order of their first occurrence, and
    the row of a day holds the temperatures of the entries of that day in
    their order, their non-empty condition codes in their order, and the
    running sum of their precipitation amounts that are present and not
    zero, taken in their order with each addition rounded to a double. *)
Theorem days_closed_form (f : forecast) :
  days f =
  map (fun key => (key, absorb_all (entries_on key (timeseries f))))
      (firstn 3 (first_seen (map dayKey (timeseries f)))) /\
  forall es,
    temps (absorb_all es) = temperatures es /\
    conditions (absorb_all es) = condition_codes es /\
    precipitation (absorb_all es) = running_sum (rain_amounts es).
Proof.
  split.
  - unfold days. now rewrite group_by_day_closed_form, firstn_map.
  - intros es. unfold absorb_all.
    rewrite fold_absorb_temps, fold_absorb_conditions,
      fold_absorb_precipitation.
    repeat split; reflexivity.
Qed.

(** X9.  The emitted days are pairwise distinct, and there are as many as
    there are distinct days among the entries, three at most. *)
Theorem days_distinct_at_most_three (f : forecast) :
  NoDup (map fst (days f)) /\
  List.length (days f) =
  Nat.min 3 (List.length (first_seen (map dayKey (timeseries f)))).
Proof.
  assert (Hkeys : map fst (days f) =
                  firstn 3 (first_seen (map dayKey (timeseries f)))).
  { unfold days. now rewrite <- group_by_day_keys, firstn_map. }
  split.
  - rewrite Hkeys.
    pose proof (first_seen_NoDup (map dayKey (timeseries f))) as Hnodup.
    rewrite <- (firstn_skipn 3 (first_seen (map dayKey (timeseries f))))
      in Hnodup.
    now apply NoDup_app_remove_r in Hnodup.
  - rewrite <- (length_map fst), Hkeys. apply length_firstn.
Qed.

Lemma entries_counted_app (d1 d2 : daily) :
  entries_counted (d1 ++ d2)%list =
  (entries_counted d1 + entries_counted d2)%nat.
Proof.
  forget_platform.
  unfold entries_counted. now rewrite map_app, list_sum_app.
Qed.

Lemma entries_counted_modify (key : string) (g : day_data -> day_data)
      (d : daily) :
  (forall v, temps (g v) = temps v) ->
  entries_counted (daily_modify key g d) = entries_counted d.
Proof.
  forget_platform.
  intros Hg. unfold entries_counted.
  induction d as [|[k v] d IH]; simpl; [reflexivity|].
  destruct (String.eqb k key); simpl; [now rewrite Hg | now rewrite IH].
Qed.

Lemma entries_counted_push (key : string) (t : Q) (d : daily) :
  In key (map fst d) ->
  entries_counted (daily_modify key (push_temp t) d) = S (entries_counted d).
Proof.
  forget_platform.
  unfold entries_counted.
  induction d as [|[k v] d IH]; simpl; [tauto|].
  intros Hin. destruct (String.eqb k key) eqn:Hk; simpl.
  - rewrite length_app. simpl. lia.
  - apply String.eqb_neq in Hk. rewrite IH; [lia|].
    destruct Hin; [contradiction | assumption].
Qed.

Lemma daily_ensure_present (key : string) (d : daily) :
  In key (map fst (daily_ensure key d)) /\
  entries_counted (daily_ensure key d) = entries_counted d.
Proof.
  forget_platform.
  destruct (daily_ensure_keys key d) as [Hin Hout].
  destruct (in_dec string_dec key (map fst d)) as [H | H].
  - rewrite (Hin H). now split.
  - rewrite (Hout H), map_app, entries_counted_app. split.
    + apply in_or_app. right. now left.
    + unfold entries_counted at 2. simpl. lia.
Qed.

Lemma group_step_counted (d : daily) (e : entry) :
  entries_counted (group_step d e) = S (entries_counted d).
Proof.
  destruct (daily_ensure_present (dayKey e) d) as [Hin Hsame].
  unfold group_step, group_under.
  destruct (precipitation_of (next_1_hours e)) as [amount|];
    [destruct (JS.truthy_number amount)|];
    (destruct (symbol_code_of (next_1_hours e)) as [code|];
     [destruct (JS.truthy_string code)|]);
    rewrite ?entries_counted_modify by reflexivity;
    now rewrite (entries_counted_push _ _ _ Hin), Hsame.
Qed.

(** X10.  The grouping loop stores each entry under exactly one day: the
    temperatures held by all the days together are as many as the entries
    of the timeseries. *)
Theorem grouping_counts_each_entry_once (es : list entry) :
  entries_counted (group_by_day es) = List.length es.
Proof.
  induction es as [|e es IH] using rev_ind; [reflexivity|].
  rewrite group_by_day_snoc, group_step_counted, IH, length_app.
  simpl. lia.
Qed.

(** X11.  For every emitted day the minimum and the maximum that are
    printed are numbers, never an infinity, and the minimum is not above
    the maximum. *)
Theorem day_range_ordered (f : forecast) (key : string) (data : day_data) :
  In (key, data) (days f) ->
  exists lo hi,
    JS.Math_min (temps data) = JS.Finite lo /\
    JS.Math_max (temps data) = JS.Finite hi /\
    lo <= hi.
Proof.
  intros Hin.
  destruct (days_summary f key data Hin) as [Hne [Htemps _]].
  assert (Hne' : temps data <> []).
  { rewrite Htemps. unfold temperatures.
    destruct (entries_on key (timeseries f)); [congruence | discriminate]. }
  destruct (Math_min_minimum _ Hne') as [lo [Hlo [Hlo_in Hmin]]].
  destruct (Math_max_maximum _ Hne') as [hi [Hhi [Hhi_in Hmax]]].
  exists lo, hi. split; [exact Hlo|]. split; [exact Hhi|].
  now apply Hmin.
Qed.

Lemma running_sum_not_negative (l : list Q) (acc : JS.extended) :
  not_negative acc -> (forall x, In x l -> 0 <= x) ->
  not_negative (fold_left JS.add l acc).
Proof.
  forget_platform.
  revert acc. induction l as [|x l IH]; intros acc Hacc Hpos; [exact Hacc|].
  simpl. apply IH.
  - destruct acc as [a| |]; simpl in *; [|exact I|contradiction].
    apply round_double_not_negative.
    assert (Hx : 0 <= x) by (apply Hpos; now left). lra.
  - intros y Hy. apply Hpos. now right.
Qed.

Lemma rain_amounts_In (es : list entry) (x : Q) :
  In x (rain_amounts es) ->
  exists e, In e es /\ precipitation_or_zero e = x.
Proof.
  forget_platform.
  unfold rain_amounts. rewrite in_flat_map. intros [e [He Hx]].
  exists e. split; [exact He|]. unfold precipitation_or_zero.
  destruct (precipitation_of (next_1_hours e)) as [amount|];
    [destruct (JS.truthy_number amount)|]; simpl in Hx;
    try contradiction.
  destruct Hx as [Hx | []]. exact Hx.
Qed.

(** X12.  When no precipitation amount of the timeseries is negative, the
    precipitation accumulated for an emitted day is not negative. *)
Theorem day_precipitation_nonnegative (f : forecast) (key : string)
        (data : day_data) :
  (forall e, In e (timeseries f) -> 0 <= precipitation_or_zero e) ->
  In (key, data) (days f) ->
  not_negative (precipitation data).
Proof.
  forget_platform.
  intros Hpos Hin.
  destruct (days_summary f key data Hin) as [_ [_ Hsum]].
  rewrite Hsum. apply running_sum_not_negative; [simpl; lra|].
  intros x Hx. apply rain_amounts_In in Hx. destruct Hx as [e [He <-]].
  apply Hpos. unfold entries_on in He.
  apply filter_In in He. tauto.
Qed.

(** ** Ties between condition codes *)

Section SortStable.

Variable A : Type.
Variable key : A -> nat.
Variable cmp : A -> A -> Z.
Hypothesis cmp_key :
  forall a b, cmp a b = (Z.of_nat (key a) - Z.of_nat (key b))%Z.

(** The sort keeps the elements of equal key in their order. *)
Lemma sort_insert_stable (k : nat) (x : A) (l : list A) :
  filter (fun y => Nat.eqb (key y) k) (sort_insert cmp x l) =
  filter (fun y => Nat.eqb (key y) k) (x :: l).
Proof using cmp_key.
  induction l as [|y l IH]; [reflexivity|].
  simpl sort_insert. destruct (cmp x y <=? 0)%Z eqn:Hc; [reflexivity|].
  assert (Hlt : (key y < key x)%nat).
  { destruct (Nat.le_gt_cases (key x) (key y)) as [H | H]; [|exact H].
    apply (cmp_le A key cmp cmp_key) in H. congruence. }
  simpl in *. rewrite IH.
  destruct (Nat.eqb (key x) k) eqn:Hx; destruct (Nat.eqb (key y) k) eqn:Hy;
    try reflexivity.
  apply Nat.eqb_eq in Hx. apply Nat.eqb_eq in Hy. lia.
Qed.

Lemma Array_sort_stable (k : nat) (l : list A) :
  filter (fun y => Nat.eqb (key y) k) (Array_sort cmp l) =
  filter (fun y => Nat.eqb (key y) k) l.
Proof using cmp_key.
  induction l as [|x l IH]; [reflexivity|].
  simpl Array_sort. rewrite sort_insert_stable. simpl. now rewrite IH.
Qed.

(** The last element of a list is the last of those that share its key. *)
Lemma Array_pop_filter (l : list A) (m : A) :
  Array_pop l = Some m ->
  Array_pop (filter (fun y => Nat.eqb (key y) (key m)) l) = Some m.
Proof.
  induction l as [|y l IH]; [discriminate|].
  destruct l as [|z l].
  - intros H. injection H as ->. simpl. now rewrite Nat.eqb_refl.
  - intros H. change (Array_pop (z :: l) = Some m) in H.
    specialize (IH H). simpl filter in *.
    destruct (Nat.eqb (key y) (key m)); [|exact IH].
    destruct (if Nat.eqb (key z) (key m)
              then z :: filter (fun y => Nat.eqb (key y) (key m)) l
              else filter (fun y => Nat.eqb (key y) (key m)) l)
      as [|u rest]; [discriminate | exact IH].
Qed.

(** The last element that passes a test splits the list. *)
Lemma Array_pop_filter_split (p : A -> bool) (l : list A) (m : A) :
  Array_pop (filter p l) = Some m ->
  exists before after,
    l = (before ++ m :: after)%list /\
    forall x, In x after -> p x = false.
Proof.
  induction l as [|y l IH]; [discriminate|].
  simpl filter. destruct (p y) eqn:Hy.
  - destruct (filter p l) as [|u rest] eqn:Hrest.
    + intros H. injection H as ->. exists [], l. split; [reflexivity|].
      intros x Hx. destruct (p x) eqn:Hpx; [|reflexivity].
      assert (Hin : In x (filter p l)) by (apply filter_In; now split).
      rewrite Hrest in Hin. contradiction.
    + intros H. change (Array_pop (u :: rest) = Some m) in H.
      destruct (IH H) as [before [after [-> Hafter]]].
      exists (y :: before), after. now split.
  - intros H. destruct (IH H) as [before [after [-> Hafter]]].
    exists (y :: before), after. now split.
Qed.

End SortStable.

(** X13.  Among the codes that occur most often in a day, the aggregator
    selects the one that occurs last in the day: every code after the
    last occurrence of the selected one occurs strictly less often. *)
Theorem mostCommon_last_of_the_most_frequent (conds : list string)
        (code : string) :
  mostCommon conds = Some code ->
  exists before after,
    conds = (before ++ code :: after)%list /\
    forall other,
      In other after ->
      (occurrences conds other < occurrences conds code)%nat.
Proof.
  forget_platform.
  unfold mostCommon. intros Hpop.
  assert (Hkey : forall a b,
             by_occurrences conds a b =
             (Z.of_nat (occurrences conds a) -
              Z.of_nat (occurrences conds b))%Z) by reflexivity.
  pose proof (Array_sort_perm string (by_occurrences conds) conds) as Hperm.
  pose proof (Array_sort_sorted string (occurrences conds)
                (by_occurrences conds) Hkey conds) as Hsorted.
  destruct (Array_pop_sorted string (occurrences conds) _ code
              Hsorted Hpop) as [_ Hmax].
  apply (Array_pop_filter string (occurrences conds)) in Hpop.
  rewrite (Array_sort_stable string (occurrences conds)
             (by_occurrences conds) Hkey) in Hpop.
  destruct (Array_pop_filter_split string _ conds code Hpop)
    as [before [after [Hsplit Hafter]]].
  exists before, after. split; [exact Hsplit|].
  intros other Hother.
  assert (Hle : key_le (occurrences conds) other code).
  { apply Hmax. apply (Permutation_in _ (Permutation_sym Hperm)).
    rewrite Hsplit. apply in_or_app. right. now right. }
  specialize (Hafter other Hother). apply Nat.eqb_neq in Hafter.
  unfold key_le in Hle. lia.
Qed.

(** ** Startup *)

(** X14.  When the connection of the transport throws, the process logs
    the fatal line and exits with status 1 without a readiness line.
    When it succeeds, the process stays up and logs three lines, issuing
    no request; the search line says ready exactly when the search client
    will go to the network, and disabled exactly when the search client
    returns the sentinel without a request. *)
Theorem startup_report (connect : js unit) (inspect : error -> string)
        (w : world) :
  (forall err w1,
      connect w = (Threw err, w1) ->
      start connect inspect w =
      (Some 1%Z,
       {| sent := sent w1;
          console :=
            (console w1 ++
             [("💥 Fatal error: " ++ inspect err)%string])%list |})) /\
  (forall w1,
      connect w = (Returned tt, w1) ->
      exists line,
        start connect inspect w =
        (None,
         {| sent := sent w1;
            console :=
              (console w1 ++
               [ "🌤️  Halden Weather MCP Server running...";
                 "   📡 YR API: ✅ Ready"; line ])%list |}) /\
        ((line = "   🔍 Search: ✅ Ready" /\
          forall query count w',
            sent (snd (braveSearch query count w')) =
            (sent w' ++ [brave_request query count])%list) \/
         (line = "   🔍 Search: ❌ Disabled (no API key)" /\
          forall query count w',
            fst (braveSearch query count w') = Returned None /\
            sent (snd (braveSearch query count w')) = sent w'))).
Proof.
  split.
  - intros err w1 Hconnect. unfold start, main, bind.
    now rewrite Hconnect.
  - intros w1 Hconnect. unfold start, main, bind, console_error.
    rewrite Hconnect. cbn [sent console]. rewrite <- !app_assoc.
    destruct key_configured eqn:Hkey.
    + eexists. split; [reflexivity|]. left. split; [reflexivity|].
      intros query count w'.
      destruct (braveSearch_world query count w' Hkey) as [lines [Hrun _]].
      now rewrite Hrun.
    + eexists. split; [reflexivity|]. right. split; [reflexivity|].
      intros query count w'. unfold braveSearch. rewrite Hkey.
      split; reflexivity.
Qed.

End Server.

(** * The statements on sample inputs *)

Lemma icon_mapper_first_match_witness :
  formatWeatherIcon (Some "heavyrain_partlycloudy") = glyph_rain /\
  formatWeatherIcon (Some "partlycloudy_day") = glyph_cloudy /\
  formatWeatherIcon (Some "sleet") = glyph_default.
Proof.
  split; [|split].
  - apply (proj2 (proj2 (icon_mapper_first_match
                           (Some "heavyrain_partlycloudy")))
             "heavyrain_partlycloudy").
    + reflexivity.
    + exists "heavy", "_partlycloudy". reflexivity.
    + exists "heavyrain_partly", EmptyString. reflexivity.
  - apply (proj1 (icon_mapper_first_match (Some "partlycloudy_day"))
             "partlycloudy_day" (firstn 4 icon_table) "cloudy" glyph_cloudy
             (skipn 5 icon_table)).
    + reflexivity.
    + reflexivity.
    + exists "partly", "_day". reflexivity.
    + intros row Hrow. apply includes_false.
      simpl in Hrow.
      destruct Hrow as [<- | [<- | [<- | [<- | []]]]]; reflexivity.
  - apply (proj1 (proj2 (icon_mapper_first_match (Some "sleet")))).
    right; right. exists "sleet". split; [reflexivity|].
    intros row Hrow. apply includes_false.
    simpl in Hrow.
    destruct Hrow as [<- | [<- | [<- | [<- | [<- | [<- | [<- | []]]]]]]];
      reflexivity.
Defined.

Lemma activity_bands_witness :
  fst (suggest_activities sample_show None (sample_net scenario_C)
         initial_world) =
  Returned (text_result
              (JS.join nl
                 [ activity_header sample_show 7 15; EmptyString;
                   msg_indoor; msg_windy; msg_enable_search ])).
Proof.
  destruct (activity_bands sample_show None (sample_net scenario_C)
              initial_world {| timeseries := scenario_C |}
              (sample_entry "2024-01-15T10:00:00.000Z" 7 15
                            (sample_next "rain" (12 # 10))) [])
    as [message [query [windy [found [Hband [Hw1 [_ [Hout [_ [_ Hkey]]]]]]]]]].
  - eexists. repeat split; reflexivity.
  - reflexivity.
  - cbv zeta in Hkey. destruct Hkey as [_ Hfound].
    { intros [k [H _]]. discriminate. }
    rewrite Hw1 in Hout by reflexivity.
    destruct Hband as [[_ [Hm _]] | [[Hdry _] | [[Hdry _] | [Hdry _]]]];
      try (contradiction Hdry; exists (12 # 10); split; reflexivity).
    rewrite Hm, Hfound in Hout. exact Hout.
Defined.

Lemma three_day_aggregation_witness :
  exists d1 d2,
    days sample_toISOString {| timeseries := two_days |} =
    [("2024-01-15", d1); ("2024-01-16", d2)] /\
    JS.Math_min (temps d1) = JS.Finite 2 /\
    JS.Math_max (temps d1) = JS.Finite 8 /\
    JS.Math_min (temps d2) = JS.Finite 1 /\
    JS.Math_max (temps d2) = JS.Finite 10.
Proof.
  destruct (three_day_aggregation sample_show sample_valid sample_toISOString
              sample_toLocaleDateString (sample_net two_days) initial_world
              {| timeseries := two_days |})
    as [_ [_ [_ Hexample]]].
  - eexists. repeat split; reflexivity.
  - reflexivity.
  - apply (Hexample
             (sample_entry "2024-01-15T10:00:00.000Z" 2 3
                           (sample_next "cloudy" 0))
             (sample_entry "2024-01-15T11:00:00.000Z" 8 3
                           (sample_next "rain" (12 # 10)))
             (sample_entry "2024-01-16T10:00:00.000Z" 10 3 None)
             (sample_entry "2024-01-16T11:00:00.000Z" 1 3
                           (sample_next "fair_day" (3 # 10))));
      try reflexivity.
    vm_compute. discriminate.
Defined.

Lemma fetch_failure_is_sentinel_witness :
  fst (fetchHaldenForecast sample_show failing_net initial_world) =
  Returned None /\
  fst (get_current_weather sample_show failing_net initial_world) =
  Returned (text_result msg_current_failed) /\
  fst (get_hourly_forecast sample_show sample_getHours failing_net
         initial_world) =
  Returned (text_result msg_forecast_failed) /\
  fst (get_3day_forecast sample_show sample_valid sample_toISOString
         sample_toLocaleDateString failing_net initial_world) =
  Returned (text_result msg_forecast_failed) /\
  fst (suggest_activities sample_show (Some "key") failing_net initial_world) =
  Returned (text_result msg_activities_failed).
Proof.
  apply (proj2 (fetch_failure_is_sentinel sample_show sample_getHours
                  sample_valid sample_toISOString sample_toLocaleDateString (Some "key")
                  failing_net initial_world)).
  left. reflexivity.
Defined.

Lemma braveSearch_credential_witness :
  (fst (braveSearch sample_show None (search_net two_results) "x" 3
          initial_world) = Returned None /\
   sent (snd (braveSearch sample_show None (search_net two_results) "x" 3
                initial_world)) = []) /\
  (fst (braveSearch sample_show (Some "key") (search_net two_results) "x" 3
          initial_world) =
   Returned (Some {| web := Some {| results := Some two_results |} |}) /\
   sent (snd (braveSearch sample_show (Some "key") (search_net two_results)
                "x" 3 initial_world)) =
   [brave_request sample_show (Some "key") "x" 3]).
Proof.
  split.
  - apply (proj1 (braveSearch_credential sample_show None
                    (search_net two_results) "x" 3 initial_world)).
    intros [k [H _]]. discriminate.
  - destruct (proj2 (braveSearch_credential sample_show (Some "key")
                       (search_net two_results) "x" 3 initial_world))
      with (parsed := {| web := Some {| results := Some two_results |} |})
      as [Hres [Hsent _]].
    + exists "key". split; [reflexivity | discriminate].
    + eexists. repeat split; reflexivity.
    + split; [exact Hres | exact Hsent].
Defined.

Lemma empty_timeseries_counterexample :
  fetch_success (yr (sample_net []) (yr_request sample_show))
                (WithTimeseries {| timeseries := [] |}) /\
  fst (fetchHaldenForecast sample_show (sample_net []) initial_world) =
  Returned (Some {| timeseries := [] |}) /\
  fst (get_current_weather sample_show (sample_net []) initial_world) <>
  Returned (text_result msg_current_failed) /\
  fst (suggest_activities sample_show None (sample_net []) initial_world) <>
  Returned (text_result msg_activities_failed) /\
  fst (get_hourly_forecast sample_show sample_getHours (sample_net [])
         initial_world) <>
  Returned (text_result msg_forecast_failed).
Proof.
  split; [eexists; repeat split; reflexivity|].
  split; [reflexivity|].
  repeat split; vm_compute; discriminate.
Qed.

Lemma empty_timeseries_not_failure_witness :
  fst (get_hourly_forecast sample_show sample_getHours (sample_net [])
         initial_world) =
  Returned (text_result (JS.join nl [hourly_header; EmptyString])) /\
  fst (get_3day_forecast sample_show sample_valid sample_toISOString
         sample_toLocaleDateString (sample_net []) initial_world) =
  Returned (text_result (JS.join nl [daily_header; EmptyString])).
Proof.
  destruct (empty_timeseries_not_failure sample_show sample_getHours
              sample_valid sample_toISOString sample_toLocaleDateString None
              (sample_net []) initial_world {| timeseries := [] |})
    as [_ [Hempty _]].
  - eexists. repeat split; reflexivity.
  - apply Hempty. reflexivity.
Defined.

Lemma rain_note_counterexample :
  (exists t,
      running_sum
        (rain_amounts (entries_on sample_toISOString "2024-01-15" drizzle)) =
      JS.Finite t /\ 0 < t) /\
  fst (get_3day_forecast sample_show sample_valid sample_toISOString
         sample_toLocaleDateString (sample_net drizzle) initial_world) =
  Returned (text_result
              (JS.join nl [ daily_header; EmptyString;
                            "☁️ 2024-01-15: 3°C - 3°C" ])).
Proof.
  split; [|vm_compute; reflexivity].
  eexists. split; [vm_compute; reflexivity | reflexivity].
Qed.

Lemma rain_note_rounded_witness :
  day_line sample_show sample_toLocaleDateString
           ("2024-01-15", absorb_all showers) =
  "🌧️ 2024-01-15: 3°C - 4°C, 0.1mm rain".
Proof.
  destruct (rain_note_rounded sample_show sample_toISOString
              sample_toLocaleDateString {| timeseries := showers |}
              "2024-01-15" (absorb_all showers))
    as [_ [note [Hline [Hfinite _]]]].
  - left. vm_compute. reflexivity.
  - edestruct Hfinite as [_ Hwet].
    + vm_compute. reflexivity.
    + vm_compute. reflexivity.
    + rewrite Hline, Hwet; [vm_compute; reflexivity|].
      vm_compute. discriminate.
Defined.

Lemma mostCommon_maximal_witness :
  exists code,
    mostCommon ["cloudy"; "rain"; "rain"; "cloudy"; "fog"] = Some code /\
    In code ["cloudy"; "rain"; "rain"; "cloudy"; "fog"] /\
    forall other,
      (occurrences ["cloudy"; "rain"; "rain"; "cloudy"; "fog"] other <=
       occurrences ["cloudy"; "rain"; "rain"; "cloudy"; "fog"] code)%nat.
Proof.
  apply (mostCommon_maximal ["cloudy"; "rain"; "rain"; "cloudy"; "fog"]).
  discriminate.
Defined.

Lemma hourly_forecast_lines_witness :
  exists lines,
    fst (get_hourly_forecast sample_show sample_getHours (sample_net two_days)
           initial_world) =
    Returned (text_result
                (JS.join nl (hourly_header :: EmptyString :: lines))) /\
    List.length lines = 4%nat.
Proof.
  destruct (hourly_forecast_lines sample_show sample_getHours
              (sample_net two_days) initial_world
              {| timeseries := two_days |})
    as [lines [Hout [Hlen _]]].
  - eexists. repeat split; reflexivity.
  - exists lines. split; [exact Hout | exact Hlen].
Defined.

Lemma handlers_without_next_hour_witness :
  (forall row,
      In row (days sample_toISOString {| timeseries := bare_hours |}) ->
      conditions (snd row) = []) /\
  exists activityResults,
    fst (suggest_activities sample_show None (sample_net bare_hours)
           initial_world) =
    Returned (text_result
                (JS.join nl
                   [ activity_header sample_show 3 12; EmptyString;
                     msg_cold; msg_windy; activityResults ])).
Proof.
  destruct (handlers_without_next_hour sample_show sample_getHours
              sample_valid sample_toISOString sample_toLocaleDateString None
              (sample_net bare_hours) initial_world
              {| timeseries := bare_hours |}
              (sample_entry "2024-01-15T22:00:00.000Z" 3 12 None)
              (tl bare_hours))
    as [_ [_ [_ [Hconds Hact]]]].
  - eexists. repeat split; reflexivity.
  - reflexivity.
  - intros e [<- | [<- | [<- | []]]]; reflexivity.
  - reflexivity.
  - split; [exact Hconds | exact Hact].
Defined.

(** * What the handlers read *)

Lemma activity_results_same_search (show : Q -> string) (key : option string)
      (net1 net2 : network) (searchQuery : string) (w1 w2 : world) :
  brave net1 = brave net2 ->
  fst (activity_results show key net1 searchQuery w1) =
  fst (activity_results show key net2 searchQuery w2).
Proof.
  intros Hbrave.
  unfold activity_results, braveSearch, try_catch, bind, fetch, json,
    console_error, ret, throw.
  rewrite Hbrave.
  destruct (key_configured key); simpl; [|reflexivity].
  destruct (brave net2 (brave_request show key searchQuery 2))
    as [m | resp]; simpl; [reflexivity|].
  destruct (ok resp); simpl; [|reflexivity].
  destruct (body resp) as [m | parsed]; simpl; [reflexivity|].
  now destruct (has_results (Some parsed)).
Qed.

(** X15.  What the forecast tools print is decided by a prefix of the
    timeseries: the hourly tool by its first twelve entries, the
    current-weather tool by its first entry, and the activity tool by its
    first entry and the answers of the search service. *)
Theorem handlers_read_a_prefix
        (show : Q -> string) (getHours : string -> Z) (key : option string)
        (net1 net2 : network) (w1 w2 : world) (f1 f2 : forecast) :
  fetch_success (yr net1 (yr_request show)) (WithTimeseries f1) ->
  fetch_success (yr net2 (yr_request show)) (WithTimeseries f2) ->
  (firstn 12 (timeseries f1) = firstn 12 (timeseries f2) ->
   fst (get_hourly_forecast show getHours net1 w1) =
   fst (get_hourly_forecast show getHours net2 w2)) /\
  (firstn 1 (timeseries f1) = firstn 1 (timeseries f2) ->
   fst (get_current_weather show net1 w1) =
   fst (get_current_weather show net2 w2) /\
   (brave net1 = brave net2 ->
    fst (suggest_activities show key net1 w1) =
    fst (suggest_activities show key net2 w2))).
Proof.
  intros H1 H2.
  apply fetch_success_delivered in H1. apply fetch_success_delivered in H2.
  split.
  - intros Hprefix.
    rewrite !get_hourly_forecast_run, H1, H2.
    unfold hourly_lines. now rewrite Hprefix.
  - intros Hfirst. split.
    + rewrite !get_current_weather_run, H1, H2.
      destruct (timeseries f1) as [|e1 r1]; destruct (timeseries f2) as [|e2 r2];
        try discriminate; [reflexivity|].
      now injection Hfirst as ->.
    + intros Hbrave.
      destruct (suggest_activities_run show key net1 w1) as [u1 [_ [_ Ha1]]].
      destruct (suggest_activities_run show key net2 w2) as [u2 [_ [_ Ha2]]].
      rewrite Ha1, Ha2, H1, H2.
      destruct (timeseries f1) as [|e1 r1]; destruct (timeseries f2) as [|e2 r2];
        try discriminate; [reflexivity|].
      injection Hfirst as ->. cbv zeta.
      now rewrite (activity_results_same_search show key net1 net2 _ u1 u2
                     Hbrave).
Qed.

(** * Days beyond the third *)

Lemma filter_swap {A : Type} (q r : A -> bool) (l : list A) :
  filter q (filter r l) = filter r (filter q l).
Proof.
  induction l as [|x l IH]; [reflexivity|].
  simpl. destruct (q x) eqn:Hq; destruct (r x) eqn:Hr; simpl;
    rewrite ?Hq, ?Hr, IH; reflexivity.
Qed.

Lemma first_seen_filter (q : string -> bool) (l : list string) :
  first_seen (filter q l) = filter q (first_seen l).
Proof.
  induction l as [|k l IH]; [reflexivity|].
  simpl. destruct (q k) eqn:Hk; simpl.
  - now rewrite IH, filter_swap.
  - rewrite IH, (filter_swap q). symmetry.
    apply forallb_filter_id, forallb_forall.
    intros x Hx. apply filter_In in Hx.
    destruct (String.eqb x k) eqn:E; [|reflexivity].
    apply String.eqb_eq in E. subst x. destruct Hx. congruence.
Qed.

Lemma nodup_app_apart (a b : list string) (k : string) :
  NoDup (a ++ b) -> In k a -> In k b -> False.
Proof.
  induction a as [|x a IH]; simpl; intros Hnodup Ha Hb; [tauto|].
  inversion Hnodup as [|? ? Hnotin Hrest]; subst.
  destruct Ha as [-> | Ha].
  - apply Hnotin. apply in_or_app. now right.
  - now apply IH.
Qed.

Lemma filter_member_prefix (a b : list string) :
  NoDup (a ++ b) ->
  filter (fun k => existsb (String.eqb k) a) (a ++ b)%list = a.
Proof.
  intros Hnodup. rewrite filter_app.
  assert (Hfirst : filter (fun k => existsb (String.eqb k) a) a = a).
  { apply forallb_filter_id, forallb_forall. intros k Hk.
    apply existsb_exists. exists k. split; [exact Hk|].
    apply String.eqb_refl. }
  assert (Hrest : filter (fun k => existsb (String.eqb k) a) b = []).
  { destruct (filter (fun k => existsb (String.eqb k) a) b) as [|k rest]
      eqn:Hf; [reflexivity|].
    assert (Hk : In k (filter (fun k => existsb (String.eqb k) a) b))
      by (rewrite Hf; now left).
    apply filter_In in Hk. destruct Hk as [Hb Hex].
    apply existsb_exists in Hex. destruct Hex as [k' [Hk' Heq]].
    apply String.eqb_eq in Heq. subst k'.
    exfalso. exact (nodup_app_apart a b k Hnodup Hk' Hb). }
  rewrite Hfirst, Hrest. apply app_nil_r.
Qed.

Lemma filter_member_firstn (n : nat) (l : list string) :
  NoDup l ->
  filter (fun k => existsb (String.eqb k) (firstn n l)) l = firstn n l.
Proof.
  intros Hnodup.
  rewrite <- (firstn_skipn n l) in Hnodup.
  pose proof (filter_member_prefix _ _ Hnodup) as H.
  now rewrite firstn_skipn in H.
Qed.

Lemma map_filter_key {A : Type} (g : A -> string) (q : string -> bool)
      (l : list A) :
  map g (filter (fun x => q (g x)) l) = filter q (map g l).
Proof.
  induction l as [|x l IH]; [reflexivity|].
  simpl. destruct (q (g x)); simpl; now rewrite IH.
Qed.

Lemma filter_key_kept {A : Type} (g : A -> string) (q : string -> bool)
      (k : string) (l : list A) :
  q k = true ->
  filter (fun x => String.eqb (g x) k) (filter (fun x => q (g x)) l) =
  filter (fun x => String.eqb (g x) k) l.
Proof.
  intros Hk. induction l as [|x l IH]; [reflexivity|].
  simpl. destruct (q (g x)) eqn:Hq; simpl; [now rewrite IH|].
  rewrite IH. destruct (String.eqb (g x) k) eqn:E; [|reflexivity].
  apply String.eqb_eq in E. congruence.
Qed.

(** X16.  Entries that fall on a fourth or later day have no part in the
    3-day output: the rows are the same when these entries are removed
    from the timeseries. *)
Theorem later_days_are_ignored (toISOString : string -> string)
        (es : list entry) :
  days toISOString
       {| timeseries :=
            filter
              (fun e =>
                 existsb (String.eqb (dayKey toISOString e))
                         (firstn 3 (first_seen (map (dayKey toISOString) es))))
              es |} =
  days toISOString {| timeseries := es |}.
Proof.
  unfold days. cbn [timeseries].
  rewrite !group_by_day_closed_form, !firstn_map.
  set (kept := firstn 3 (first_seen (map (dayKey toISOString) es))).
  set (q := fun k => existsb (String.eqb k) kept).
  change (fun e => existsb (String.eqb (dayKey toISOString e)) kept)
    with (fun e => q (dayKey toISOString e)).
  rewrite map_filter_key, first_seen_filter.
  assert (Hsame : firstn 3 (filter q (first_seen
                                        (map (dayKey toISOString) es))) =
                  kept).
  { unfold q, kept.
    rewrite filter_member_firstn by apply first_seen_NoDup.
    apply firstn_firstn. }
  rewrite Hsame.
  apply map_ext_in. intros k Hk. f_equal. f_equal.
  unfold entries_on. apply filter_key_kept.
  unfold q. apply existsb_exists. exists k. split; [exact Hk|].
  apply String.eqb_refl.
Qed.

(** * Variants of a symbol code *)

Lemma starts_with_before_underscore (needle a b : string) :
  JS.includes needle "_" = false ->
  needle <> EmptyString ->
  JS.starts_with needle (a ++ String "_"%char b) = JS.starts_with needle a.
Proof.
  revert a. induction needle as [|x needle IH]; intros a Hno Hne;
    [congruence|].
  cbn [JS.includes JS.starts_with] in Hno.
  apply orb_false_iff in Hno. destruct Hno as [Hx Hrest].
  rewrite andb_true_r, Ascii.eqb_sym in Hx.
  destruct a as [|c a]; cbn [append JS.starts_with].
  - now rewrite Hx.
  - destruct needle as [|y needle]; [reflexivity|].
    rewrite IH; [reflexivity | exact Hrest | discriminate].
Qed.

Lemma includes_around_underscore (needle a b : string) :
  JS.includes needle "_" = false ->
  needle <> EmptyString ->
  JS.includes (a ++ String "_"%char b) needle =
  JS.includes a needle || JS.includes b needle.
Proof.
  intros Hno Hne. induction a as [|c a IH].
  - pose proof (starts_with_before_underscore needle EmptyString b Hno Hne)
      as Hstart.
    cbn [append] in *. cbn [JS.includes]. rewrite Hstart.
    destruct needle; [congruence | reflexivity].
  - cbn [append JS.includes].
    change (String c (a ++ String "_"%char b))
      with (String c a ++ String "_"%char b).
    rewrite starts_with_before_underscore, IH by assumption.
    now rewrite orb_assoc.
Qed.

(** X17.  A variant suffix after an underscore that contains none of the
    seven substrings, such as "day" or "night", does not change the icon
    of a symbol code. *)
Theorem icon_ignores_variant (base variant : string) :
  (forall row, In row icon_table -> JS.includes variant (fst row) = false) ->
  formatWeatherIcon (Some (base ++ "_" ++ variant)) =
  formatWeatherIcon (Some base).
Proof.
  intros Hvariant.
  assert (Hinc : forall row, In row icon_table ->
             JS.includes (base ++ "_" ++ variant) (fst row) =
             JS.includes base (fst row)).
  { intros row Hrow.
    change (base ++ "_" ++ variant) with (base ++ String "_"%char variant).
    rewrite includes_around_underscore, (Hvariant row Hrow), orb_false_r.
    - reflexivity.
    - simpl in Hrow.
      destruct Hrow as [<- | [<- | [<- | [<- | [<- | [<- | [<- | []]]]]]]];
        reflexivity.
    - simpl in Hrow.
      destruct Hrow as [<- | [<- | [<- | [<- | [<- | [<- | [<- | []]]]]]]];
        discriminate. }
  rewrite !formatWeatherIcon_table. unfold icon_spec.
  assert (Hfind : forall table,
             (forall row, In row table -> In row icon_table) ->
             find (fun row => JS.includes (base ++ "_" ++ variant) (fst row))
                  table =
             find (fun row => JS.includes base (fst row)) table).
  { induction table as [|row table IH]; intros Hsub; [reflexivity|].
    cbn [find]. rewrite (Hinc row) by (apply Hsub; now left).
    destruct (JS.includes base (fst row)); [reflexivity|].
    apply IH. intros r Hr. apply Hsub. now right. }
  now rewrite Hfind.
Qed.

(** * The further properties on sample inputs *)

Lemma body_without_timeseries_is_sentinel_witness :
  fst (fetchHaldenForecast sample_show shapeless_net initial_world) =
  Returned None /\
  fst (get_current_weather sample_show shapeless_net initial_world) =
  Returned (text_result msg_current_failed) /\
  fst (get_hourly_forecast sample_show sample_getHours shapeless_net
         initial_world) =
  Returned (text_result msg_forecast_failed) /\
  fst (get_3day_forecast sample_show sample_valid sample_toISOString
         sample_toLocaleDateString shapeless_net initial_world) =
  Returned (text_result msg_forecast_failed) /\
  fst (suggest_activities sample_show None shapeless_net initial_world) =
  Returned (text_result msg_activities_failed).
Proof.
  apply (body_without_timeseries_is_sentinel sample_show sample_getHours
           sample_valid sample_toISOString sample_toLocaleDateString None shapeless_net
           initial_world).
  eexists. repeat split; reflexivity.
Defined.

Lemma braveSearch_failure_is_sentinel_witness :
  fst (braveSearch sample_show (Some "key") failing_net "x" 3 initial_world) =
  Returned None /\
  sent (snd (braveSearch sample_show (Some "key") failing_net "x" 3
               initial_world)) =
  [brave_request sample_show (Some "key") "x" 3] /\
  exists line,
    console (snd (braveSearch sample_show (Some "key") failing_net "x" 3
                    initial_world)) = [line].
Proof.
  destruct (braveSearch_failure_is_sentinel sample_show (Some "key")
              failing_net "x" 3 initial_world) as [_ Hfail].
  - exists "key". split; [reflexivity | discriminate].
  - apply Hfail. exact I.
Defined.

Lemma handlers_return_or_throw_witness :
  fst (get_3day_forecast sample_show sample_valid sample_toISOString
         sample_toLocaleDateString (sample_net undated) initial_world) =
  Threw invalid_time /\
  (fst (get_current_weather sample_show (sample_net []) initial_world) =
   Threw (undefined_read "data") /\
   fst (suggest_activities sample_show None (sample_net []) initial_world) =
   Threw (undefined_read "data")) /\
  (exists text,
      fst (get_current_weather sample_show failing_net initial_world) =
      Returned (text_result text)) /\
  (exists text,
      fst (suggest_activities sample_show None (sample_net scenario_C)
             initial_world) = Returned (text_result text)).
Proof.
  split; [|split; [|split]].
  - apply (handlers_return_or_throw sample_show sample_getHours
             sample_valid sample_toISOString sample_toLocaleDateString None
             (sample_net undated) initial_world).
    exists {| timeseries := undated |}.
    split; [eexists; repeat split; reflexivity | reflexivity].
  - apply (handlers_return_or_throw sample_show sample_getHours
             sample_valid sample_toISOString sample_toLocaleDateString None
             (sample_net []) initial_world).
    eexists. repeat split; reflexivity.
  - apply (handlers_return_or_throw sample_show sample_getHours
             sample_valid sample_toISOString sample_toLocaleDateString None
             failing_net initial_world).
    intros [resp [Hreply [Hok _]]]. injection Hreply as <-. discriminate.
  - apply (handlers_return_or_throw sample_show sample_getHours
             sample_valid sample_toISOString sample_toLocaleDateString None
             (sample_net scenario_C) initial_world).
    intros [resp [Hreply [_ Hbody]]]. injection Hreply as <-. discriminate.
Defined.

Lemma handlers_requests_witness :
  sent (snd (suggest_activities sample_show (Some "key") failing_net
               initial_world)) = [yr_request sample_show].
Proof.
  apply (handlers_requests sample_show sample_getHours sample_valid sample_toISOString
           sample_toLocaleDateString (Some "key") failing_net initial_world).
  intros f [resp [Hreply [Hok _]]]. injection Hreply as <-. discriminate.
Defined.

Lemma activity_search_section_witness :
  fst (activity_results sample_show (Some "key") (throttled_net scenario_C)
         "Halden Norway indoor activities museums cafes" initial_world) =
  Returned EmptyString /\
  exists lines,
    fst (activity_results sample_show (Some "key")
           (full_net scenario_C two_results)
           "Halden Norway indoor activities museums cafes" initial_world) =
    Returned (nl ++ nl ++ "🎯 Suggested places:" ++ nl ++
              JS.join (nl ++ nl) lines) /\
    List.length lines = 2%nat.
Proof.
  split.
  - apply (activity_search_section sample_show (Some "key")
             (throttled_net scenario_C)
             "Halden Norway indoor activities museums cafes" initial_world).
    + exists "key". split; [reflexivity | discriminate].
    + reflexivity.
  - destruct (activity_search_section sample_show (Some "key")
                (full_net scenario_C two_results)
                "Halden Norway indoor activities museums cafes" initial_world)
      as [_ Hfound].
    + exists "key". split; [reflexivity | discriminate].
    + destruct Hfound as [lines [Hout [Hlen _]]]; [discriminate|].
      exists lines. split; [exact Hout | exact Hlen].
Defined.

Lemma search_local_info_cases_witness :
  search_local_info sample_show None (search_net two_results) "hiking"
                    initial_world =
  (Returned (text_result msg_search_disabled), initial_world) /\
  fst (search_local_info sample_show (Some "key") failing_net "hiking"
         initial_world) =
  Returned (text_result
              ("🔍 No search results found for " ++ dquote ++ "hiking" ++
               dquote ++ " in Halden. Try different keywords.")) /\
  exists lines,
    fst (search_local_info sample_show (Some "key") (search_net two_results)
           "hiking" initial_world) =
    Returned (text_result
                (JS.join nl
                   [ "🔍 Local info for " ++ dquote ++ "hiking" ++ dquote ++
                     " in Halden:"; EmptyString; JS.join nl lines ])) /\
    List.length lines = 2%nat.
Proof.
  split; [|split].
  - apply (search_local_info_cases sample_show None (search_net two_results)
             "hiking" initial_world).
    intros [k [H _]]. discriminate.
  - destruct (proj2 (search_local_info_cases sample_show (Some "key")
                       failing_net "hiking" initial_world))
      as [_ [Hnone _]].
    + exists "key". split; [reflexivity | discriminate].
    + apply Hnone. reflexivity.
  - destruct (proj2 (search_local_info_cases sample_show (Some "key")
                       (search_net two_results) "hiking" initial_world))
      as [_ [_ Hfound]].
    + exists "key". split; [reflexivity | discriminate].
    + destruct Hfound as [lines [Hout [Hlen _]]]; [discriminate|].
      exists lines. split; [exact Hout | exact Hlen].
Defined.

Lemma day_range_ordered_witness :
  exists lo hi,
    JS.Math_min (temps (absorb_all (firstn 2 two_days))) = JS.Finite lo /\
    JS.Math_max (temps (absorb_all (firstn 2 two_days))) = JS.Finite hi /\
    lo <= hi.
Proof.
  apply (day_range_ordered sample_toISOString {| timeseries := two_days |}
           "2024-01-15" (absorb_all (firstn 2 two_days))).
  left. reflexivity.
Defined.

Lemma day_precipitation_nonnegative_witness :
  not_negative (precipitation (absorb_all (firstn 2 two_days))).
Proof.
  apply (day_precipitation_nonnegative sample_toISOString
           {| timeseries := two_days |} "2024-01-15"
           (absorb_all (firstn 2 two_days))).
  - intros e [<- | [<- | [<- | [<- | []]]]]; vm_compute; discriminate.
  - left. reflexivity.
Defined.

Lemma mostCommon_last_of_the_most_frequent_witness :
  exists before after,
    ["cloudy"; "rain"; "rain"; "cloudy"; "fog"] =
    (before ++ "cloudy" :: after)%list /\
    forall other,
      In other after ->
      (occurrences ["cloudy"; "rain"; "rain"; "cloudy"; "fog"] other <
       occurrences ["cloudy"; "rain"; "rain"; "cloudy"; "fog"] "cloudy")%nat.
Proof.
  apply (mostCommon_last_of_the_most_frequent
           ["cloudy"; "rain"; "rain"; "cloudy"; "fog"] "cloudy").
  reflexivity.
Defined.

Lemma startup_report_witness :
  start None (throw (Error "EPIPE")) sample_inspect initial_world =
  (Some 1%Z, {| sent := []; console := ["💥 Fatal error: EPIPE"] |}) /\
  exists line,
    start None (ret tt) sample_inspect initial_world =
    (None,
     {| sent := [];
        console := [ "🌤️  Halden Weather MCP Server running...";
                     "   📡 YR API: ✅ Ready"; line ] |}).
Proof.
  split.
  - apply (proj1 (startup_report sample_show None failing_net
                    (throw (Error "EPIPE")) sample_inspect initial_world)
             (Error "EPIPE") initial_world).
    reflexivity.
  - destruct (proj2 (startup_report sample_show None failing_net (ret tt)
                       sample_inspect initial_world) initial_world)
      as [line [Hrun _]].
    + reflexivity.
    + exists line. exact Hrun.
Defined.

Lemma handlers_read_a_prefix_witness :
  fst (get_hourly_forecast sample_show sample_getHours (sample_net long_hours)
         initial_world) =
  fst (get_hourly_forecast sample_show sample_getHours
         (sample_net (long_hours ++ drizzle)) initial_world) /\
  fst (get_current_weather sample_show (sample_net long_hours)
         initial_world) =
  fst (get_current_weather sample_show (sample_net two_days) initial_world) /\
  fst (suggest_activities sample_show (Some "key") (sample_net long_hours)
         initial_world) =
  fst (suggest_activities sample_show (Some "key") (sample_net two_days)
         initial_world).
Proof.
  split.
  - apply (handlers_read_a_prefix sample_show sample_getHours None
             (sample_net long_hours) (sample_net (long_hours ++ drizzle))
             initial_world initial_world
             {| timeseries := long_hours |}
             {| timeseries := (long_hours ++ drizzle)%list |}).
    + eexists. repeat split; reflexivity.
    + eexists. repeat split; reflexivity.
    + reflexivity.
  - destruct (handlers_read_a_prefix sample_show sample_getHours (Some "key")
                (sample_net long_hours) (sample_net two_days)
                initial_world initial_world
                {| timeseries := long_hours |} {| timeseries := two_days |})
      as [_ Hfirst].
    + eexists. repeat split; reflexivity.
    + eexists. repeat split; reflexivity.
    + destruct Hfirst as [Hcur Hact]; [reflexivity|].
      split; [exact Hcur | apply Hact; reflexivity].
Defined.

Lemma icon_ignores_variant_witness :
  formatWeatherIcon (Some ("partlycloudy" ++ "_" ++ "night")) =
  formatWeatherIcon (Some "partlycloudy").
Proof.
  apply (icon_ignores_variant "partlycloudy" "night").
  intros row Hrow. simpl in Hrow.
  destruct Hrow as [<- | [<- | [<- | [<- | [<- | [<- | [<- | []]]]]]]];
    reflexivity.
Defined.
